(** * Student details form (src/index.py): validator and preview/submit workflow

    A shallow embedding of the Flask application in [src/index.py]:
    the regular expressions and [validate_payload], the csrf helpers, the two
    sinks [save_to_csv] and [send_email], and the three routes [index],
    [preview] and [submit], followed by the properties of the specification
    that were checked against them. *)

From Stdlib Require Import NArith Ascii String.
From Stdlib Require Strings.Byte.
From stdpp Require Import gmap strings list fin_maps.

Local Open Scope string_scope.
Local Open Scope list_scope.
Local Open Scope N_scope.

(** ** Python strings

    A Python [str] is a sequence of Unicode code points; [len] counts code
    points.  Dictionary keys, reasons and flash messages are fixed ASCII
    literals of the program and are kept as [string]. *)

Abbreviation str := (list N).

(** The code points of an ASCII literal. *)
Fixpoint u (s : string) : str :=
  match s with
  | EmptyString => []
  | String a s' => N_of_ascii a :: u s'
  end.

Definition in_range (lo hi c : N) : bool := (lo <=? c) && (c <=? hi).

(** [str.isspace] on one code point, which is also the class [\s] of [re] on a
    [str] pattern and the set removed by [str.strip()]. *)
Definition isspace (c : N) : bool :=
  in_range 0x09 0x0d c || in_range 0x1c 0x20 c || (c =? 0x85) || (c =? 0xa0)
  || (c =? 0x1680) || in_range 0x2000 0x200a c || in_range 0x2028 0x2029 c
  || (c =? 0x202f) || (c =? 0x205f) || (c =? 0x3000).

(** First code points of the blocks of ten decimal digits (general category
    Nd) of Unicode 14, the tables of CPython 3.11.  The properties below use
    three facts about the table only: it holds [0-9], it holds U+0661, and
    it does not hold the line feed. *)
Definition decimal_blocks : list N :=
  [0x30; 0x660; 0x6f0; 0x7c0; 0x966; 0x9e6; 0xa66; 0xae6; 0xb66; 0xbe6;
   0xc66; 0xce6; 0xd66; 0xde6; 0xe50; 0xed0; 0xf20; 0x1040; 0x1090; 0x17e0;
   0x1810; 0x1946; 0x19d0; 0x1a80; 0x1a90; 0x1b50; 0x1bb0; 0x1c40; 0x1c50;
   0xa620; 0xa8d0; 0xa900; 0xa9d0; 0xa9f0; 0xaa50; 0xabf0; 0xff10; 0x104a0;
   0x10d30; 0x11066; 0x110f0; 0x11136; 0x111d0; 0x112f0; 0x11450; 0x114d0;
   0x11650; 0x116c0; 0x11730; 0x118e0; 0x11950; 0x11c50; 0x11d50; 0x11da0;
   0x16a60; 0x16ac0; 0x16b50; 0x1d7ce; 0x1d7d8; 0x1d7e2; 0x1d7ec; 0x1d7f6;
   0x1e140; 0x1e2f0; 0x1e950; 0x1fbf0].

(** The class [\d] of [re] on a [str] pattern: any Unicode decimal digit
    (general category Nd), not only [0-9]. *)
Definition isdecimal (c : N) : bool :=
  existsb (fun b => in_range b (b + 9) c) decimal_blocks.

(** The class [[0-9]]. *)
Definition is_ascii_digit (c : N) : bool := in_range 0x30 0x39 c.

(** The class [[A-Za-z]]. *)
Definition is_ascii_letter (c : N) : bool :=
  in_range 0x41 0x5a c || in_range 0x61 0x7a c.

(** The class [[A-Za-z .'-]]. *)
Definition is_name_char (c : N) : bool :=
  is_ascii_letter c || (c =? 0x20) || (c =? 0x2e) || (c =? 0x27) || (c =? 0x2d).

(** The class [[^@\s]]. *)
Definition is_email_char (c : N) : bool := negb ((c =? 0x40) || isspace c).

(** ** Regular expressions

    The patterns of the program use character classes, concatenation, [+]
    and the bounded repetition [{m,n}].  Matching is by derivatives; for an
    anchored pattern this accepts the same strings as the backtracking
    search of [re]. *)

Inductive regex : Type :=
| Nul
| Eps
| Cls (p : N -> bool)
| Cat (r1 r2 : regex)
| Alt (r1 r2 : regex)
| Star (r : regex).

(** [r+] *)
Definition Plus (r : regex) : regex := Cat r (Star r).

Fixpoint Exactly (n : nat) (r : regex) : regex :=
  match n with
  | O => Eps
  | S n' => Cat r (Exactly n' r)
  end.

Fixpoint Upto (n : nat) (r : regex) : regex :=
  match n with
  | O => Eps
  | S n' => Alt Eps (Cat r (Upto n' r))
  end.

(** [r{lo,hi}] *)
Definition Rep (lo hi : nat) (r : regex) : regex :=
  Cat (Exactly lo r) (Upto (hi - lo) r).

Fixpoint nullable (r : regex) : bool :=
  match r with
  | Nul => false
  | Eps => true
  | Cls _ => false
  | Cat r1 r2 => nullable r1 && nullable r2
  | Alt r1 r2 => nullable r1 || nullable r2
  | Star _ => true
  end.

Fixpoint deriv (c : N) (r : regex) : regex :=
  match r with
  | Nul => Nul
  | Eps => Nul
  | Cls p => if p c then Eps else Nul
  | Cat r1 r2 =>
      if nullable r1 then Alt (Cat (deriv c r1) r2) (deriv c r2)
      else Cat (deriv c r1) r2
  | Alt r1 r2 => Alt (deriv c r1) (deriv c r2)
  | Star r1 => Cat (deriv c r1) (Star r1)
  end.

Fixpoint matches (r : regex) (s : str) : bool :=
  match s with
  | [] => nullable r
  | c :: s' => matches (deriv c r) s'
  end.

(** The strings denoted by a pattern. *)
Inductive lang : regex -> str -> Prop :=
| lang_eps : lang Eps []
| lang_cls p c : p c = true -> lang (Cls p) [c]
| lang_cat r1 r2 s1 s2 : lang r1 s1 -> lang r2 s2 -> lang (Cat r1 r2) (s1 ++ s2)
| lang_alt_l r1 r2 s : lang r1 s -> lang (Alt r1 r2) s
| lang_alt_r r1 r2 s : lang r2 s -> lang (Alt r1 r2) s
| lang_star_nil r : lang (Star r) []
| lang_star_cons r s1 s2 :
    lang r s1 -> lang (Star r) s2 -> lang (Star r) (s1 ++ s2).

(** [pattern.match(s)] for a pattern [^r$] compiled without flags: [^] is the
    start of the string and [$] is its end or the position just before a
    final newline. *)
Definition re_match (r : regex) (s : str) : bool :=
  matches r s
  || match rev s with
     | 0x0a :: t => matches r (rev t)
     | _ => false
     end.

(** [EMAIL_REGEX = re.compile(r"^[^@\s]+@[^@\s]+\.[^@\s]+$")] *)
Definition EMAIL_REGEX : regex :=
  Cat (Plus (Cls is_email_char))
    (Cat (Cls (N.eqb 0x40))
       (Cat (Plus (Cls is_email_char))
          (Cat (Cls (N.eqb 0x2e)) (Plus (Cls is_email_char))))).

(** [PHONE_REGEX = re.compile(r"^[0-9]{10,15}$")] *)
Definition PHONE_REGEX : regex := Rep 10 15 (Cls is_ascii_digit).

(** [NAME_REGEX = re.compile(r"^[A-Za-z][A-Za-z .'-]{1,49}$")] *)
Definition NAME_REGEX : regex :=
  Cat (Cls is_ascii_letter) (Rep 1 49 (Cls is_name_char)).

Definition DEPARTMENTS : list str :=
  [u "BCA"; u "BSc CS"; u "BSc IT"; u "MCA"; u "MSc CS"; u "ECE"; u "EEE";
   u "CSE"; u "AIML"; u "Data Science"].

(** ** Text utilities *)

Fixpoint lstrip (s : str) : str :=
  match s with
  | [] => []
  | c :: s' => if isspace c then lstrip s' else s
  end.

Definition rstrip (s : str) : str := rev (lstrip (rev s)).

(** [s.strip()] *)
Definition strip (s : str) : str := rstrip (lstrip s).

(** [re.sub(r"\s+", " ", s)]: every maximal run of whitespace becomes one
    space; [in_run] records that the previous code point was whitespace. *)
Fixpoint sub_spaces (in_run : bool) (s : str) : str :=
  match s with
  | [] => []
  | c :: s' =>
      if isspace c then
        if in_run then sub_spaces true s' else 0x20 :: sub_spaces true s'
      else c :: sub_spaces false s'
  end.

(** [s or ""] for an optional string. *)
Definition or_empty (o : option str) : str := default [] o.

(** [clean_text(s) = re.sub(r"\s+", " ", (s or "").strip())] *)
Definition clean_text (o : option str) : str :=
  sub_spaces false (strip (or_empty o)).

(** [re.sub(r"\D", "", s)] *)
Definition sub_nondigits (s : str) : str := filter (fun c => isdecimal c = true) s.

(** ** Validator *)

(** A value of a form-data dictionary: a string, or [None] when the raw
    request lacked the field. *)
Inductive field : Type :=
| FNone
| FStr (s : str).

#[global] Instance field_eq_dec : EqDecision field.
Proof. solve_decision. Defined.

(** The pair returned by [validate_payload]: [(False, reason)] or
    [(True, data)]. *)
Inductive validation : Type :=
| Rejected (reason : string)
| Accepted (data : gmap string field).

(** Truth value of an optional string: [None] and [""] are false. *)
Definition truthy (o : option str) : bool :=
  match o with
  | Some (_ :: _) => true
  | _ => false
  end.

Definition validate_payload (form : gmap string str) : validation :=
  if truthy (form !! "website") then Rejected "Bot detected." else
  let name := clean_text (form !! "name") in
  let dept := clean_text (form !! "department") in
  let email := clean_text (form !! "email") in
  let phone := sub_nondigits (or_empty (form !! "phone")) in
  let interest := clean_text (form !! "interest") in
  let sgoal := clean_text (form !! "short_goal") in
  let lgoal := clean_text (form !! "long_goal") in
  if negb (re_match NAME_REGEX name) then
    Rejected "Please enter a valid full name."
  else if negb (bool_decide (dept ∈ DEPARTMENTS)) then
    Rejected "Please select a valid department."
  else if negb (re_match EMAIL_REGEX email) then
    Rejected "Please enter a valid email address."
  else if negb (re_match PHONE_REGEX phone) then
    Rejected "Phone must be 10-15 digits."
  else if ((length interest <? 3) || (300 <? length interest))%nat then
    Rejected "Area of interest must be between 3 and 300 characters."
  else if ((length sgoal <? 3) || (600 <? length sgoal))%nat then
    Rejected "Short-term goal must be between 3 and 600 characters."
  else if ((length lgoal <? 3) || (800 <? length lgoal))%nat then
    Rejected "Long-term goal must be between 3 and 800 characters."
  else
    Accepted
      (<["name" := FStr name]>
        (<["department" := FStr dept]>
          (<["email" := FStr email]>
            (<["phone" := FStr phone]>
              (<["interest" := FStr interest]>
                (<["short_goal" := FStr sgoal]>
                  (<["long_goal" := FStr lgoal]> ∅))))))).

(** ** Session, environment and effects *)

(** A value stored in the session: the token, the form data, or the list of
    flashed messages. *)
Inductive sval : Type :=
| SStr (s : str)
| SDict (d : gmap string field)
| SList (l : list string).

#[global] Instance sval_eq_dec : EqDecision sval.
Proof. solve_decision. Defined.

Inductive exn : Type :=
| KeyError (key : string)
| TypeError (msg : string)
| ValueError (msg : string)
| OSError (msg : string)
| SMTPException (msg : string)
| IndexError (msg : string)
| AttributeError (msg : string)
| TemplateNotFound (name : string).

Inductive result (A : Type) : Type :=
| Ok (a : A)
| Raise (e : exn).
Arguments Ok {A} a.
Arguments Raise {A} e.

(** Module-level configuration read from the process environment. *)
Record config : Type := {
  MAIL_USER : option str;
  MAIL_PASS : option str;
  OWNER_EMAIL : str;
}.

(** What the outside world supplies while one request is handled.  The
    email library and the SMTP server are outside parties: [header_fault]
    is the exception, if any, that [msg[name] = value] raises on an
    [EmailMessage] (a value of more than one line, an address the parser
    chokes on, ...); [smtp_fault] is the exception, if any, of the SMTP
    dialogue, and [smtp_accepted] says whether the server had accepted the
    message before that exception (the closing QUIT can fail after the
    message went out). *)
Record env : Type := {
  urandom : list Byte.byte;       (* os.urandom(16) *)
  now_iso : str;                  (* datetime.now().isoformat(timespec='seconds') *)
  now_text : str;                 (* datetime.now().strftime('%Y-%m-%d %H:%M:%S') *)
  fs_fault : option exn;          (* the exception of open/write, if any *)
  smtp_fault : option exn;        (* the exception of the SMTP dialogue, if any *)
  smtp_accepted : bool;
  header_fault : string -> str -> option exn;
}.

(** The templates and the values handed to them. *)
Inductive page : Type :=
| FORM_TPL (data : gmap string field)
| PREVIEW_TPL (data : gmap string field)
| SUCCESS_TPL.

Inductive response : Type :=
| Render (p : page) (csrf_token : str)
| Redirect (endpoint : string).

Inductive csv_line : Type :=
| Header
| Row (cells : gmap string field).

Record email : Type := {
  subject : str;
  sender : str;
  recipient : str;
  body : str;
}.

Record world : Type := {
  session : gmap string sval;
  csv_file : option (list csv_line);   (* [None]: submissions.csv does not exist *)
  outbox : list email;                 (* messages accepted by the SMTP server *)
  stdout : list str;
  render_calls : list (page * str);    (* calls of render_template_string so far *)
}.

Definition set_session (f : gmap string sval -> gmap string sval) (w : world) : world :=
  {| session := f (session w); csv_file := csv_file w;
     outbox := outbox w; stdout := stdout w; render_calls := render_calls w |}.

Definition set_csv_file (c : option (list csv_line)) (w : world) : world :=
  {| session := session w; csv_file := c; outbox := outbox w; stdout := stdout w;
     render_calls := render_calls w |}.

Definition add_outbox (m : email) (w : world) : world :=
  {| session := session w; csv_file := csv_file w;
     outbox := outbox w ++ [m]; stdout := stdout w; render_calls := render_calls w |}.

Definition print (line : str) (w : world) : world :=
  {| session := session w; csv_file := csv_file w;
     outbox := outbox w; stdout := stdout w ++ [line];
     render_calls := render_calls w |}.

Definition add_render_call (p : page) (csrf_token : str) (w : world) : world :=
  {| session := session w; csv_file := csv_file w;
     outbox := outbox w; stdout := stdout w;
     render_calls := render_calls w ++ [(p, csrf_token)] |}.

(** Handlers run in a state and exception monad over [world]; a raised
    exception keeps the state reached so far. *)
Definition M (A : Type) : Type := world -> result A * world.

Definition ret {A} (a : A) : M A := fun w => (Ok a, w).
Definition raise {A} (e : exn) : M A := fun w => (Raise e, w).
Definition bind {A B} (m : M A) (k : A -> M B) : M B :=
  fun w => match m w with
           | (Ok a, w') => k a w'
           | (Raise e, w') => (Raise e, w')
           end.
Definition get_session : M (gmap string sval) := fun w => (Ok (session w), w).
Definition modify_session (f : gmap string sval -> gmap string sval) : M unit :=
  fun w => (Ok tt, set_session f w).

Notation "x <- m ;; k" := (bind m (fun x => k))
  (at level 100, m at next level, right associativity).
Notation "m ;;; k" := (bind m (fun _ => k))
  (at level 100, right associativity).

(** [try: m  except Exception as e: handler(e)] *)
Definition try_except {A} (m : M A) (handler : exn -> M A) : M A :=
  fun w => match m w with
           | (Ok a, w') => (Ok a, w')
           | (Raise e, w') => handler e w'
           end.

(** ** csrf helpers *)

Definition hex_digit (n : N) : N :=
  if n <? 10 then 0x30 + n else 0x61 + (n - 10).

(** [bytes.hex()] *)
Definition hex (bs : list Byte.byte) : str :=
  flat_map (fun b => let n := Byte.to_N b in
                     [hex_digit (n / 16); hex_digit (n mod 16)]) bs.

Definition new_csrf_token (ev : env) : M str :=
  let token := hex (urandom ev) in
  modify_session (insert "csrf_token" (SStr token));;;
  ret token.

(** [token and session.get('csrf_token') == token], as a truth value. *)
Definition validate_csrf (token : option str) (sess : gmap string sval) : bool :=
  match token with
  | Some (c :: t) => bool_decide (sess !! "csrf_token" = Some (SStr (c :: t)))
  | _ => false
  end.

(** ** Flask helpers *)

Definition flashes (sess : gmap string sval) : list string :=
  match sess !! "_flashes" with
  | Some (SList l) => l
  | _ => []
  end.

(** [flash(message)] appends to the list kept in the session. *)
Definition flash (message : string) : M unit :=
  modify_session (fun sess => <["_flashes" := SList (flashes sess ++ [message])]> sess).

(** [get_flashed_messages()] is called inside the content block of
    [FORM_TPL] only, a block that is never rendered (see
    [render_template_string] below), so nothing takes the messages out of
    the session. *)

(** [render_template_string(TPL, base=BASE_HEAD, ...)].  Each of the three
    templates starts with [{% extends base %}] and [base] is bound to the
    text of [BASE_HEAD]; the template engine takes a string given to
    [extends] for the name of a template, the application has no template
    of that name, and the lookup raises [TemplateNotFound] before any block
    is rendered; the exception names the whole text of [BASE_HEAD], written
    [TemplateNotFound "BASE_HEAD"] here.  The call is recorded with the
    values handed to it. *)
Definition render_template_string (p : page) (csrf_token : str) : M response :=
  fun w => (Raise (TemplateNotFound "BASE_HEAD"), add_render_call p csrf_token w).

(** ** Sinks *)

Definition exn_text (e : exn) : str :=
  match e with
  | KeyError k => u k
  | TypeError m => u m
  | ValueError m => u m
  | OSError m => u m
  | SMTPException m => u m
  | IndexError m => u m
  | AttributeError m => u m
  | TemplateNotFound n => u n
  end.

(** [data[key]] *)
Definition getitem (data : gmap string field) (key : string) : M field :=
  match data !! key with
  | Some v => ret v
  | None => raise (KeyError key)
  end.

(** How an f-string shows a value. *)
Definition fmt (v : field) : str :=
  match v with
  | FNone => u "None"
  | FStr s => s
  end.

(** ["\n".join(lines)] *)
Fixpoint join_lines (lines : list str) : str :=
  match lines with
  | [] => []
  | [l] => l
  | l :: rest => l ++ 0x0a :: join_lines rest
  end.

(** The line boundaries of [str.splitlines]. *)
Definition is_linebreak (c : N) : bool :=
  in_range 0x0a 0x0d c || in_range 0x1c 0x1e c || (c =? 0x85)
  || (c =? 0x2028) || (c =? 0x2029).

(** [s.splitlines()]; [after_cr] records that the previous code point was a
    carriage return, so that a line feed after it ends the same line, and
    [cur] is the current line, reversed. *)
Fixpoint splitlines_aux (after_cr : bool) (cur : str) (s : str) : list str :=
  match s with
  | [] => match cur with
          | [] => []
          | _ => [rev cur]
          end
  | c :: s' =>
      if after_cr && (c =? 0x0a) then splitlines_aux false cur s'
      else if is_linebreak c then rev cur :: splitlines_aux (c =? 0x0d) [] s'
      else splitlines_aux false (c :: cur) s'
  end.

Definition splitlines (s : str) : list str := splitlines_aux false [] s.

Definition single_line (value : str) : bool :=
  (length (splitlines value) <=? 1)%nat.

(** [msg[name] = value] on an [EmailMessage]: whether it raises is the
    library's affair. *)
Definition set_header (ev : env) (name : string) (value : str) : M unit :=
  match header_fault ev name value with
  | Some e => raise e
  | None => ret tt
  end.

(** The exception with which the default policy
    ([email.policy.EmailPolicy.header_store_parse]) refuses a value of more
    than one line, whatever the header. *)
Definition multi_line_error : exn :=
  ValueError "Header values may not contain linefeed or carriage return characters".

Definition subject_of (name department : field) : str :=
  u "New Student Submission " ++ 0x2022 :: u " " ++ fmt name
    ++ u " (" ++ fmt department ++ u ")".

(** The SMTP dialogue inside the [with] block: without an exception the
    message went out; with one it may or may not have. *)
Definition smtp_send (ev : env) (msg : email) : M unit :=
  fun w => match smtp_fault ev with
           | Some e => (Raise e, if smtp_accepted ev then add_outbox msg w else w)
           | None => (Ok tt, add_outbox msg w)
           end.

(** The headers are set, and the fields read, before the [try] block; only
    the SMTP dialogue is inside it. *)
Definition send_email (cfg : config) (ev : env) (data : gmap string field) : M bool :=
  if negb (truthy (MAIL_USER cfg) && truthy (MAIL_PASS cfg)) then
    (fun w => (Ok false, print (u "[WARN] MAIL_USER/MAIL_PASS not set; skipping email send.") w))
  else
    name <- getitem data "name";;
    department <- getitem data "department";;
    set_header ev "Subject" (subject_of name department);;;
    set_header ev "From" (or_empty (MAIL_USER cfg));;;
    set_header ev "To" (OWNER_EMAIL cfg);;;
    email_ <- getitem data "email";;
    phone <- getitem data "phone";;
    interest <- getitem data "interest";;
    short_goal <- getitem data "short_goal";;
    long_goal <- getitem data "long_goal";;
    let msg :=
      {| subject := subject_of name department;
         sender := or_empty (MAIL_USER cfg);
         recipient := OWNER_EMAIL cfg;
         body := join_lines
           [ u "A new student detail submission has been received:" ++ [0x0a];
             u "Name: " ++ fmt name;
             u "Department: " ++ fmt department;
             u "Email: " ++ fmt email_;
             u "Phone: " ++ fmt phone;
             u "Area of Interest: " ++ fmt interest;
             u "Short-Term Goal: " ++ fmt short_goal;
             u "Long-Term Goal: " ++ fmt long_goal;
             [];
             u "Submitted at: " ++ now_text ev ] |} in
    try_except
      (smtp_send ev msg;;; ret true)
      (fun e => (fun w => (Ok false, print (u "[ERROR] Failed to send email: " ++ exn_text e) w))).

(** The column names given to [csv.DictWriter]. *)
Definition fieldnames : list string :=
  ["timestamp"; "name"; "department"; "email"; "phone"; "interest";
   "short_goal"; "long_goal"].

(** The file system is an outside party: [fs_fault] is the exception, if
    any, with which the append fails.  What such a failure leaves in the file
    (it may have been created, or partly written) is not modelled: the log
    is kept as it was, and the properties below that speak of the log after
    an append are stated for appends that do not fail.  [DictWriter.writerow]
    itself raises [ValueError] for a key outside [fieldnames] (its message
    goes on to list the keys); by then the file is open and the header of a
    new file written. *)
Definition save_to_csv (ev : env) (data : gmap string field) : M unit :=
  fun w =>
    match fs_fault ev with
    | Some e => (Raise e, w)
    | None =>
        let new_file := negb (bool_decide (is_Some (csv_file w))) in
        let old := default [] (csv_file w) in
        let opened := if new_file then old ++ [Header] else old in
        let row := data ∪ {["timestamp" := FStr (now_iso ev)]} in
        if bool_decide (dom row ⊆ list_to_set fieldnames) then
          (Ok tt, set_csv_file (Some (opened ++ [Row row])) w)
        else
          (Raise (ValueError "dict contains fields not in fieldnames"),
           set_csv_file (Some opened) w)
    end.

(** ** Routes *)

Definition of_opt (o : option str) : field :=
  match o with
  | Some s => FStr s
  | None => FNone
  end.

Definition index (ev : env) : M response :=
  csrf_token <- new_csrf_token ev;;
  sess <- get_session;;
  let data := match sess !! "form_data" with
              | Some (SDict d) => d
              | _ => ∅
              end in
  render_template_string (FORM_TPL data) csrf_token.

Definition preview (ev : env) (form : gmap string str) : M response :=
  sess <- get_session;;
  if negb (validate_csrf (form !! "csrf_token") sess) then
    flash "Invalid session. Please try again.";;;
    ret (Redirect "index")
  else
    match validate_payload form with
    | Rejected reason =>
        flash reason;;;
        modify_session (insert "form_data" (SDict
          (<["name" := of_opt (form !! "name")]>
            (<["department" := of_opt (form !! "department")]>
              (<["email" := of_opt (form !! "email")]>
                (<["phone" := of_opt (form !! "phone")]>
                  (<["interest" := of_opt (form !! "interest")]>
                    (<["short_goal" := of_opt (form !! "short_goal")]>
                      (<["long_goal" := of_opt (form !! "long_goal")]> ∅)))))))));;;
        ret (Redirect "index")
    | Accepted data =>
        modify_session (insert "form_data" (SDict data));;;
        csrf_token <- new_csrf_token ev;;
        render_template_string (PREVIEW_TPL data) csrf_token
    end.

(** [if not data] holds for [None] and for the empty dictionary.  A value
    that is not a dictionary is never stored under [form_data]
    ([reachable_form_data_ok] below); unpacking it would be a [TypeError]. *)
Definition submit (cfg : config) (ev : env) (form : gmap string str) : M response :=
  sess <- get_session;;
  if negb (validate_csrf (form !! "csrf_token") sess) then
    flash "Invalid session. Please try again.";;;
    ret (Redirect "index")
  else if bool_decide (form !! "action" = Some (u "edit")) then
    ret (Redirect "index")
  else
    match sess !! "form_data" with
    | Some (SDict data) =>
        if bool_decide (data = ∅) then
          flash "Session expired. Please re-enter your details.";;;
          ret (Redirect "index")
        else
          save_to_csv ev data;;;
          _ <- send_email cfg ev data;;
          modify_session (delete "form_data");;;
          csrf_token <- new_csrf_token ev;;
          render_template_string SUCCESS_TPL csrf_token
    | None =>
        flash "Session expired. Please re-enter your details.";;;
        ret (Redirect "index")
    | Some _ => raise (TypeError "form_data is not a mapping")
    end.

(** ** The application as a transition system *)

Inductive request : Type :=
| GET_index
| POST_preview (form : gmap string str)
| POST_submit (form : gmap string str).

Definition handle (cfg : config) (ev : env) (req : request) : M response :=
  match req with
  | GET_index => index ev
  | POST_preview form => preview ev form
  | POST_submit form => submit cfg ev form
  end.

(** How a request is served.  [handle] is what the view function does to the
    session object.  Served without debug, the session is saved with every
    response, the 500 of an uncaught exception included.  Under
    [app.run(debug=True)], the way the module starts itself, an uncaught
    exception is passed on to the server, no response is made and the
    session changes of that request are lost; what was written to the log or
    mailed stays. *)
Definition serve (debug : bool) (cfg : config) (ev : env) (req : request) : M response :=
  fun w =>
    match handle cfg ev req w with
    | (Ok r, w') => (Ok r, w')
    | (Raise e, w') =>
        (Raise e, if debug then set_session (fun _ => session w) w' else w')
    end.

Fixpoint run_served (debug : bool) (cfg : config) (reqs : list (env * request))
    (w : world) : world :=
  match reqs with
  | [] => w
  | (ev, req) :: rest => run_served debug cfg rest (serve debug cfg ev req w).2
  end.

(** A browser session starts with an empty session; the log file and the
    mailbox are whatever they are.  [run] and [reachable] follow the session
    as it is saved without debug. *)
Definition fresh (w : world) : Prop := session w = ∅.

Fixpoint run (cfg : config) (reqs : list (env * request)) (w : world) : world :=
  match reqs with
  | [] => w
  | (ev, req) :: rest => run cfg rest (handle cfg ev req w).2
  end.

Inductive reachable (cfg : config) : world -> Prop :=
| reach_fresh w : fresh w -> reachable cfg w
| reach_step w ev req : reachable cfg w -> reachable cfg (handle cfg ev req w).2.

(** ** The rules of the specification

    Section 4.1 of the specification lists the checks in a fixed order and
    asks for the reason of the first one that fails. *)

Inductive rule : Type :=
| HoneypotRule
| NameRule
| DepartmentRule
| EmailRule
| PhoneRule
| InterestRule
| ShortGoalRule
| LongGoalRule.

Definition rule_order : list rule :=
  [HoneypotRule; NameRule; DepartmentRule; EmailRule; PhoneRule;
   InterestRule; ShortGoalRule; LongGoalRule].

Definition reason_of (r : rule) : string :=
  match r with
  | HoneypotRule => "Bot detected."
  | NameRule => "Please enter a valid full name."
  | DepartmentRule => "Please select a valid department."
  | EmailRule => "Please enter a valid email address."
  | PhoneRule => "Phone must be 10-15 digits."
  | InterestRule => "Area of interest must be between 3 and 300 characters."
  | ShortGoalRule => "Short-term goal must be between 3 and 600 characters."
  | LongGoalRule => "Long-term goal must be between 3 and 800 characters."
  end.

Definition out_of_bounds (lo hi : nat) (s : str) : bool :=
  ((length s <? lo) || (hi <? length s))%nat.

(** Whether a rule, taken alone, is violated by a raw form. *)
Definition violated (form : gmap string str) (r : rule) : bool :=
  match r with
  | HoneypotRule => truthy (form !! "website")
  | NameRule => negb (re_match NAME_REGEX (clean_text (form !! "name")))
  | DepartmentRule => negb (bool_decide (clean_text (form !! "department") ∈ DEPARTMENTS))
  | EmailRule => negb (re_match EMAIL_REGEX (clean_text (form !! "email")))
  | PhoneRule => negb (re_match PHONE_REGEX (sub_nondigits (or_empty (form !! "phone"))))
  | InterestRule => out_of_bounds 3 300 (clean_text (form !! "interest"))
  | ShortGoalRule => out_of_bounds 3 600 (clean_text (form !! "short_goal"))
  | LongGoalRule => out_of_bounds 3 800 (clean_text (form !! "long_goal"))
  end.

(** The first violated rule in the order of the specification. *)
Definition first_violated (form : gmap string str) : option rule :=
  List.find (violated form) rule_order.

(** A text is whitespace-normalized when it has no leading or trailing
    whitespace and every whitespace code point in it is a single space
    standing between two other code points. *)
Fixpoint single_spaced (s : str) : bool :=
  match s with
  | [] => true
  | c :: s' =>
      (if isspace c then
         (c =? 0x20) && match s' with
                        | c' :: _ => negb (isspace c')
                        | [] => false
                        end
       else true)
      && single_spaced s'
  end.

Definition starts_nonspace (s : str) : bool :=
  match s with
  | c :: _ => negb (isspace c)
  | [] => true
  end.

Definition whitespace_normalized (s : str) : Prop :=
  starts_nonspace s = true /\ single_spaced s = true.

(** The seven fields of a record. *)
Definition record_of (name dept email_ phone interest sgoal lgoal : str)
  : gmap string field :=
  <["name" := FStr name]>
    (<["department" := FStr dept]>
      (<["email" := FStr email_]>
        (<["phone" := FStr phone]>
          (<["interest" := FStr interest]>
            (<["short_goal" := FStr sgoal]>
              (<["long_goal" := FStr lgoal]> ∅)))))).

Definition fully_normalized (data : gmap string field) : Prop :=
  exists name dept email_ phone interest sgoal lgoal,
    data = record_of name dept email_ phone interest sgoal lgoal
    /\ Forall whitespace_normalized [name; dept; email_; interest; sgoal; lgoal]
    /\ forallb is_ascii_digit phone = true.

(** The shape of a name in the words of the specification: a letter, then 1
    to 49 letters, spaces, periods, apostrophes or hyphens. *)
Definition name_shape (s : str) : Prop :=
  exists c rest,
    s = c :: rest /\ is_ascii_letter c = true
    /\ (1 <= length rest <= 49)%nat /\ forallb is_name_char rest = true.

(** The position of a rule in the order of the specification. *)
Definition rank (r : rule) : nat :=
  match r with
  | HoneypotRule => 0
  | NameRule => 1
  | DepartmentRule => 2
  | EmailRule => 3
  | PhoneRule => 4
  | InterestRule => 5
  | ShortGoalRule => 6
  | LongGoalRule => 7
  end.

(** The record that [validate_payload] builds from a raw form. *)
Definition normalized_record (form : gmap string str) : gmap string field :=
  record_of (clean_text (form !! "name")) (clean_text (form !! "department"))
    (clean_text (form !! "email")) (sub_nondigits (or_empty (form !! "phone")))
    (clean_text (form !! "interest")) (clean_text (form !! "short_goal"))
    (clean_text (form !! "long_goal")).

(** ** Vocabulary for the workflow properties *)

Definition field_names : list string :=
  ["name"; "department"; "email"; "phone"; "interest"; "short_goal"; "long_goal"].

(** A form-data dictionary that has the seven fields. *)
Definition has_fields (d : gmap string field) : Prop :=
  Forall (fun k => is_Some (d !! k)) field_names.

(** What the session holds under [form_data], if it is a dictionary. *)
Definition pending (w : world) : gmap string field :=
  match session w !! "form_data" with
  | Some (SDict d) => d
  | _ => ∅
  end.

(** The csrf token presented by a request. *)
Definition token_of (req : request) : option str :=
  match req with
  | GET_index => None
  | POST_preview form => form !! "csrf_token"
  | POST_submit form => form !! "csrf_token"
  end.

Definition state_changing (req : request) : bool :=
  match req with
  | GET_index => false
  | _ => true
  end.

(** The invalid-session path: the message is flashed, nothing else changes,
    and the browser is sent back to the form. *)
Definition invalid_session (w : world) : result response * world :=
  (Ok (Redirect "index"),
   set_session
     (fun sess =>
        <["_flashes" := SList (flashes sess ++ ["Invalid session. Please try again."])]> sess)
     w).

Definition is_render (r : result response) : bool :=
  match r with
  | Ok (Render _ _) => true
  | _ => false
  end.

(** The only shapes the session takes: a dictionary with the seven fields
    under [form_data], if anything. *)
Definition form_data_ok (sess : gmap string sval) : Prop :=
  match sess !! "form_data" with
  | None => True
  | Some (SDict d) => has_fields d
  | Some _ => False
  end.

(** The raw echo stored by [preview] after a rejection. *)
Definition raw_echo (form : gmap string str) : gmap string field :=
  <["name" := of_opt (form !! "name")]>
    (<["department" := of_opt (form !! "department")]>
      (<["email" := of_opt (form !! "email")]>
        (<["phone" := of_opt (form !! "phone")]>
          (<["interest" := of_opt (form !! "interest")]>
            (<["short_goal" := of_opt (form !! "short_goal")]>
              (<["long_goal" := of_opt (form !! "long_goal")]> ∅)))))).

(** The email library accepts the three headers of the message for a
    record. *)
Definition headers_accepted (cfg : config) (ev : env) (data : gmap string field) : Prop :=
  forall name department,
    data !! "name" = Some name -> data !! "department" = Some department ->
    header_fault ev "Subject" (subject_of name department) = None
    /\ header_fault ev "From" (or_empty (MAIL_USER cfg)) = None
    /\ header_fault ev "To" (OWNER_EMAIL cfg) = None.

(** The record has no key that [csv.DictWriter] would refuse. *)
Definition fits_header (data : gmap string field) : Prop :=
  dom data ⊆ list_to_set fieldnames.

(** The statements of [submit] that follow its checks. *)
Definition confirm_steps (cfg : config) (ev : env) (data : gmap string field)
  : M response :=
  save_to_csv ev data;;;
  _ <- send_email cfg ev data;;
  modify_session (delete "form_data");;;
  csrf_token <- new_csrf_token ev;;
  render_template_string SUCCESS_TPL csrf_token.

(** ** Sample requests *)

Definition sample_form : gmap string str :=
  <["name" := u "Ann O'Brien-Lee"]>
    (<["department" := u "BSc CS"]>
      (<["email" := u "ann@example.org"]>
        (<["phone" := u "(123) 456-7890"]>
          (<["interest" := u "Compilers"]>
            (<["short_goal" := u "Finish the course"]>
              (<["long_goal" := u "Teach"]> ∅)))))).

Definition sample_cfg : config :=
  {| MAIL_USER := Some (u "form@example.org");
     MAIL_PASS := Some (u "app-password");
     OWNER_EMAIL := u "owner@example.org" |}.

(** An email library that refuses the values of more than one line and no
    others. *)
Definition multi_line_only (name : string) (value : str) : option exn :=
  if single_line value then None else Some multi_line_error.

Definition sample_env (seed : Byte.byte) : env :=
  {| urandom := repeat seed 16;
     now_iso := u "2024-01-01T10:00:00";
     now_text := u "2024-01-01 10:00:00";
     fs_fault := None;
     smtp_fault := None;
     smtp_accepted := false;
     header_fault := multi_line_only |}.

Definition empty_world : world :=
  {| session := ∅; csv_file := None; outbox := []; stdout := []; render_calls := [] |}.

Definition confirm_form (token : str) : gmap string str :=
  <["csrf_token" := token]> (<["action" := u "confirm"]> ∅).

Definition edit_form (token : str) : gmap string str :=
  <["csrf_token" := token]> (<["action" := u "edit"]> ∅).

(** The token minted by a render under [sample_env Byte.x3a]. *)
Definition first_token : str := hex (repeat Byte.x3a 16).

(** A form whose name is the single letter A, carrying [first_token]. *)
Definition short_name_form : gmap string str :=
  <["csrf_token" := first_token]> (<["name" := u "A"]> sample_form).

Definition good_form : gmap string str :=
  <["csrf_token" := first_token]> sample_form.

(** The world after [GET /] in a new browser session ... *)
Definition after_index : world :=
  run sample_cfg [(sample_env Byte.x3a, GET_index)] empty_world.

(** ... after an accepted [POST /preview] ... *)
Definition after_preview : world :=
  run sample_cfg
    [(sample_env Byte.x3a, GET_index);
     (sample_env Byte.x5b, POST_preview good_form)] empty_world.

(** ... and after a rejected one. *)
Definition after_rejected_preview : world :=
  run sample_cfg
    [(sample_env Byte.x3a, GET_index);
     (sample_env Byte.x5b, POST_preview short_name_form)] empty_world.

Definition second_token : str := hex (repeat Byte.x5b 16).

Definition smtp_down_env : env :=
  {| urandom := repeat Byte.x7c 16;
     now_iso := u "2024-01-01T10:05:00";
     now_text := u "2024-01-01 10:05:00";
     fs_fault := None;
     smtp_fault := Some (SMTPException "timed out");
     smtp_accepted := false;
     header_fault := multi_line_only |}.

Definition disk_full_env : env :=
  {| urandom := repeat Byte.x7c 16;
     now_iso := u "2024-01-01T10:05:00";
     now_text := u "2024-01-01 10:05:00";
     fs_fault := Some (OSError "No space left on device");
     smtp_fault := None;
     smtp_accepted := false;
     header_fault := multi_line_only |}.

(** ** Vocabulary for the further properties *)

(** The shape of an address accepted by [EMAIL_REGEX]: three non-empty parts
    without [@] or whitespace, joined by one [@] and one period. *)
Definition email_shape (s : str) : Prop :=
  exists a b c,
    s = a ++ 0x40 :: b ++ 0x2e :: c
    /\ a <> [] /\ b <> [] /\ c <> []
    /\ forallb is_email_char a = true
    /\ forallb is_email_char b = true
    /\ forallb is_email_char c = true.

(** The form a browser posts when the fields of a stored dictionary are sent
    back as they are: a [None] value is no field at all. *)
Definition form_of (data : gmap string field) : gmap string str :=
  omap (fun v => match v with FStr s => Some s | FNone => None end) data.

(** Reading a token back into bytes, to state that [hex] loses nothing. *)
Definition unhex_digit (c : N) : option N :=
  if in_range 0x30 0x39 c then Some (c - 0x30)
  else if in_range 0x61 0x66 c then Some (c - 0x61 + 10)
  else None.

Fixpoint unhex (s : str) : option (list Byte.byte) :=
  match s with
  | [] => Some []
  | hi :: lo :: s' =>
      match unhex_digit hi, unhex_digit lo, unhex s' with
      | Some h, Some l, Some bs =>
          match Byte.of_N (16 * h + l) with
          | Some b => Some (b :: bs)
          | None => None
          end
      | _, _, _ => None
      end
  | [_] => None
  end.

(** The lines of the log, none when the file does not exist. *)
Definition log_lines (w : world) : list csv_line := default [] (csv_file w).

Definition is_row (l : csv_line) : bool :=
  match l with
  | Row _ => true
  | Header => false
  end.

(** A log that starts with its header and holds rows only after it. *)
Definition log_well_formed (w : world) : Prop :=
  match csv_file w with
  | None => True
  | Some lines => exists rows, lines = Header :: rows /\ forallb is_row rows = true
  end.

(** What [preview] stores under [form_data]: the raw echo of a rejected form
    or the record of an accepted one. *)
Definition stored_by_preview (sess : gmap string sval) : Prop :=
  match sess !! "form_data" with
  | None => True
  | Some (SDict d) =>
      exists form,
        (d = raw_echo form /\ exists reason, validate_payload form = Rejected reason)
        \/ validate_payload form = Accepted d
  | Some _ => False
  end.

(** [flash(message)] seen as a change of world. *)
Definition flashed (message : string) (w : world) : world :=
  set_session
    (fun sess => <["_flashes" := SList (flashes sess ++ [message])]> sess) w.

(** ** Normalization in the words of the specification

    "Collapse consecutive whitespace to a single space, strip leading and
    trailing whitespace": what is left is the words of the text, the maximal
    runs of code points that are not whitespace, joined by single spaces.
    "Strip all non-digit characters": what is left is the digits, in their
    order.  These definitions share nothing with [clean_text] and the
    substitution of [\D] but the character classes. *)

(** [cur] is the word being read, reversed. *)
Fixpoint words_from (cur : str) (s : str) : list str :=
  match s with
  | [] => match cur with
          | [] => []
          | _ => [rev cur]
          end
  | c :: s' =>
      if isspace c then
        match cur with
        | [] => words_from [] s'
        | _ => rev cur :: words_from [] s'
        end
      else words_from (c :: cur) s'
  end.

Definition words (s : str) : list str := words_from [] s.

Fixpoint unwords (ws : list str) : str :=
  match ws with
  | [] => []
  | [w] => w
  | w :: rest => w ++ 0x20 :: unwords rest
  end.

Definition normalize_spaces (s : str) : str := unwords (words s).

Fixpoint keep_digits (s : str) : str :=
  match s with
  | [] => []
  | c :: s' => if isdecimal c then c :: keep_digits s' else keep_digits s'
  end.

(** What each rule of section 4.1 asks of a raw form. *)
Definition meets (form : gmap string str) (r : rule) : Prop :=
  match r with
  | HoneypotRule => or_empty (form !! "website") = []
  | NameRule => name_shape (normalize_spaces (or_empty (form !! "name")))
  | DepartmentRule => normalize_spaces (or_empty (form !! "department")) ∈ DEPARTMENTS
  | EmailRule => email_shape (normalize_spaces (or_empty (form !! "email")))
  | PhoneRule =>
      (10 <= length (keep_digits (or_empty (form !! "phone"))) <= 15)%nat
      /\ forallb is_ascii_digit (keep_digits (or_empty (form !! "phone"))) = true
  | InterestRule =>
      (3 <= length (normalize_spaces (or_empty (form !! "interest"))) <= 300)%nat
  | ShortGoalRule =>
      (3 <= length (normalize_spaces (or_empty (form !! "short_goal"))) <= 600)%nat
  | LongGoalRule =>
      (3 <= length (normalize_spaces (or_empty (form !! "long_goal"))) <= 800)%nat
  end.

(** The record the specification asks for. *)
Definition spec_record (form : gmap string str) : gmap string field :=
  record_of
    (normalize_spaces (or_empty (form !! "name")))
    (normalize_spaces (or_empty (form !! "department")))
    (normalize_spaces (or_empty (form !! "email")))
    (keep_digits (or_empty (form !! "phone")))
    (normalize_spaces (or_empty (form !! "interest")))
    (normalize_spaces (or_empty (form !! "short_goal")))
    (normalize_spaces (or_empty (form !! "long_goal"))).

(** A form typed with stray whitespace and a formatted phone. *)
(** The record of the sample form, written out. *)
Definition sample_record : gmap string field :=
  record_of (u "Ann O'Brien-Lee") (u "BSc CS") (u "ann@example.org")
    (u "1234567890") (u "Compilers") (u "Finish the course") (u "Teach").

Definition spaced_form : gmap string str :=
  <["name" := 0x20 :: 0x09 :: u "Ann" ++ [0x20; 0xa0; 0x20] ++ u "O'Brien-Lee" ++ [0x0a]]>
    (<["department" := u " BSc" ++ [0x09; 0x20] ++ u "CS "]>
      (<["email" := u " ann@example.org "]>
        (<["phone" := u "+1 (123) 456-7890"]>
          (<["interest" := u "  Compilers   and  proofs "]>
            (<["short_goal" := u "Finish the course"]>
              (<["long_goal" := u "Teach"]> ∅)))))).

(** ** Vocabulary for the served application *)

(** Whether [send_email] returns for a record in a world. *)
Definition mail_returns (cfg : config) (ev : env) (data : gmap string field)
    (w : world) : bool :=
  match (send_email cfg ev data w).1 with
  | Ok _ => true
  | Raise _ => false
  end.

(** Whether both sinks return for a record: the append succeeds and
    [send_email] then returns, whatever its boolean. *)
Definition sinks_return (cfg : config) (ev : env) (data : gmap string field)
    (w : world) : bool :=
  match save_to_csv ev data w with
  | (Ok _, w1) => mail_returns cfg ev data w1
  | (Raise _, _) => false
  end.


(** The world after a successful append of a record. *)
Definition appended (ev : env) (data : gmap string field) (w : world) : world :=
  set_csv_file
    (Some (match csv_file w with
           | None => [Header]
           | Some lines => lines
           end ++ [Row (data ∪ {["timestamp" := FStr (now_iso ev)]})])) w.



(** * Properties *)

(** Closed facts about the sample requests are settled by evaluation. *)
Ltac by_evaluation := vm_compute; reflexivity.

(** ** Derivative matching decides the language of a pattern *)

Lemma nullable_lang r : nullable r = true <-> lang r [].
Proof.
  split.
  - induction r as [| | p | r1 IH1 r2 IH2 | r1 IH1 r2 IH2 | r IH]; simpl; intros H;
      try discriminate.
    + constructor.
    + apply andb_true_iff in H as [H1 H2].
      change (@nil N) with (@nil N ++ []). constructor; auto.
    + apply orb_true_iff in H as [H|H]; [apply lang_alt_l | apply lang_alt_r]; auto.
    + constructor.
  - intros H. remember [] as s eqn:Es.
    induction H as [ | p c Hp | r1 r2 s1 s2 H1 IH1 H2 IH2 | r1 r2 s H IH
                   | r1 r2 s H IH | r | r s1 s2 H1 IH1 H2 IH2 ]; simpl; auto.
    + discriminate.
    + apply app_eq_nil in Es as [-> ->]. rewrite IH1, IH2; auto.
    + rewrite IH; auto.
    + rewrite IH; auto using orb_true_r.
Qed.

Lemma deriv_sound c r : forall s, lang (deriv c r) s -> lang r (c :: s).
Proof.
  induction r as [| | p | r1 IH1 r2 IH2 | r1 IH1 r2 IH2 | r IH]; simpl; intros s H.
  - inversion H.
  - inversion H.
  - destruct (p c) eqn:Hp; inversion H; subst. now constructor.
  - assert (Hcat : forall t, lang (Cat (deriv c r1) r2) t -> lang (Cat r1 r2) (c :: t)).
    { intros t Ht. inversion Ht; subst.
      change (c :: s1 ++ s2) with ((c :: s1) ++ s2). constructor; auto. }
    destruct (nullable r1) eqn:Hn; [| auto].
    inversion H; subst; [auto |].
    change (c :: s) with ([] ++ c :: s). constructor; auto.
    now apply nullable_lang.
  - inversion H; subst; [apply lang_alt_l | apply lang_alt_r]; auto.
  - inversion H; subst.
    change (c :: s1 ++ s2) with ((c :: s1) ++ s2). constructor; auto.
Qed.

Lemma deriv_complete c r s : lang r (c :: s) -> lang (deriv c r) s.
Proof.
  intros H. remember (c :: s) as t eqn:Et. revert s Et.
  induction H as [ | p c0 Hp | r1 r2 s1 s2 H1 IH1 H2 IH2 | r1 r2 s0 H IH
                 | r1 r2 s0 H IH | r | r s1 s2 H1 IH1 H2 IH2 ]; intros s Et; simpl.
  - discriminate.
  - injection Et as -> <-. rewrite Hp. constructor.
  - destruct s1 as [|c1 s1'].
    + simpl in Et. subst s2. apply nullable_lang in H1. rewrite H1.
      apply lang_alt_r; auto.
    + injection Et as -> <-.
      destruct (nullable r1); [apply lang_alt_l |]; constructor; auto.
  - apply lang_alt_l; auto.
  - apply lang_alt_r; auto.
  - discriminate.
  - destruct s1 as [|c1 s1'].
    + simpl in Et. auto.
    + injection Et as -> <-. constructor; auto.
Qed.

Lemma matches_lang s : forall r, matches r s = true <-> lang r s.
Proof.
  induction s as [|c s IH]; intros r; simpl.
  - apply nullable_lang.
  - rewrite IH. split; [apply deriv_sound | apply deriv_complete].
Qed.

(** What the repetitions of one character class denote. *)

Section ClassRepetition.

Variable p : N -> bool.

Lemma lang_cls_cons r c s :
  lang (Cat (Cls p) r) (c :: s) <-> p c = true /\ lang r s.
Proof.
  split.
  - intros H. inversion H as [ | | r1 r2 s1 s2 H1 H2 | | | | ]; subst.
    inversion H1; simplify_eq/=. auto.
  - intros [Hp Hr]. change (c :: s) with ([c] ++ s). constructor; auto.
    now constructor.
Qed.

Lemma lang_cls_nil r : ~ lang (Cat (Cls p) r) [].
Proof.
  intros H. inversion H as [ | | r1 r2 s1 s2 H1 H2 | | | | ]; subst.
  inversion H1; subst. discriminate.
Qed.

Lemma lang_exactly_cls n : forall s,
  lang (Exactly n (Cls p)) s <-> length s = n /\ forallb p s = true.
Proof.
  induction n as [|n IH]; intros s; simpl.
  - split.
    + intros H. inversion H. auto.
    + intros [Hl _]. destruct s; [constructor | discriminate].
  - destruct s as [|c s].
    + split; [intros H; now apply lang_cls_nil in H | intros [? _]; discriminate].
    + rewrite lang_cls_cons, IH. simpl. rewrite andb_true_iff.
      split; [intros (? & ? & ?) | intros (? & ? & ?)]; auto.
Qed.

Lemma lang_upto_cls n : forall s,
  lang (Upto n (Cls p)) s <-> (length s <= n)%nat /\ forallb p s = true.
Proof.
  induction n as [|n IH]; intros s; simpl.
  - split.
    + intros H. inversion H. auto.
    + intros [Hl _]. destruct s; [constructor | simpl in Hl; lia].
  - destruct s as [|c s].
    + split; [intros _; simpl; split; [lia | auto] | intros _; apply lang_alt_l; constructor].
    + split.
      * intros H. inversion H; subst; [inversion H3 |].
        apply lang_cls_cons in H3 as [Hp Hr]. apply IH in Hr as [Hl Ha].
        simpl. rewrite Hp, Ha. split; [lia | auto].
      * simpl. rewrite andb_true_iff. intros (Hl & Hp & Ha).
        apply lang_alt_r, lang_cls_cons. split; [auto |]. apply IH. split; [lia | auto].
Qed.

Lemma lang_rep_cls lo hi s :
  (lo <= hi)%nat ->
  lang (Rep lo hi (Cls p)) s <->
  (lo <= length s <= hi)%nat /\ forallb p s = true.
Proof.
  intros Hle. unfold Rep. split.
  - intros H. inversion H; subst.
    apply lang_exactly_cls in H2 as [Hl1 Ha1].
    apply lang_upto_cls in H4 as [Hl2 Ha2].
    rewrite length_app, forallb_app, Ha1, Ha2. split; [lia | auto].
  - intros [Hl Ha]. rewrite <- (take_drop lo s).
    rewrite <- (take_drop lo s), forallb_app in Ha.
    apply andb_true_iff in Ha as [Ha1 Ha2].
    constructor.
    + apply lang_exactly_cls. rewrite length_take. split; [lia | auto].
    + apply lang_upto_cls. rewrite length_drop. split; [lia | auto].
Qed.

Lemma lang_star_cls s : lang (Star (Cls p)) s <-> forallb p s = true.
Proof.
  split.
  - intros H. remember (Star (Cls p)) as r eqn:Er.
    induction H as [ | | | | | r0 | r0 s1 s2 H1 _ H2 IH2 ]; try discriminate; auto.
    injection Er as ->. inversion H1; subst. simpl.
    rewrite H0. auto.
  - induction s as [|c s IH]; simpl; intros H; [constructor |].
    apply andb_true_iff in H as [Hp Ha].
    change (c :: s) with ([c] ++ s). constructor; [now constructor | auto].
Qed.

Lemma lang_plus_cls s :
  lang (Plus (Cls p)) s <-> s <> [] /\ forallb p s = true.
Proof.
  unfold Plus. destruct s as [|c s].
  - split; [intros H; now apply lang_cls_nil in H | intros [? _]; congruence].
  - rewrite lang_cls_cons, lang_star_cls. simpl. rewrite andb_true_iff.
    split; [intros [? ?] | intros [_ [? ?]]]; auto.
Qed.

End ClassRepetition.

(** ** Whitespace normalization *)

Lemma lstrip_starts s : starts_nonspace (lstrip s) = true.
Proof.
  induction s as [|c s IH]; simpl; [reflexivity |].
  destruct (isspace c) eqn:Hc; [exact IH | simpl; now rewrite Hc].
Qed.

Lemma lstrip_suffix s : exists p, s = p ++ lstrip s.
Proof.
  induction s as [|c s [p Hp]]; simpl.
  - now exists [].
  - destruct (isspace c).
    + exists (c :: p). simpl. now rewrite <- Hp.
    + now exists [].
Qed.

Lemma lstrip_id s : starts_nonspace s = true -> lstrip s = s.
Proof.
  destruct s as [|c s]; simpl; [reflexivity |].
  intros H. apply negb_true_iff in H. now rewrite H.
Qed.

Lemma rstrip_prefix s : exists q, s = rstrip s ++ q.
Proof.
  unfold rstrip. destruct (lstrip_suffix (rev s)) as [p Hp].
  exists (rev p). rewrite <- rev_app_distr, <- Hp. symmetry. apply rev_involutive.
Qed.

Lemma strip_ends s : starts_nonspace (rev (strip s)) = true.
Proof.
  unfold strip, rstrip. rewrite rev_involutive. apply lstrip_starts.
Qed.

Lemma strip_starts s : starts_nonspace (strip s) = true.
Proof.
  unfold strip. pose proof (lstrip_starts s) as H.
  destruct (rstrip_prefix (lstrip s)) as [q Hq].
  destruct (rstrip (lstrip s)) as [|c r]; [reflexivity |].
  rewrite Hq in H. exact H.
Qed.

Lemma ends_nonspace_tail c t :
  t <> [] -> starts_nonspace (rev (c :: t)) = starts_nonspace (rev t).
Proof.
  intros Ht. simpl. destruct (rev t) as [|x r] eqn:Er; [| reflexivity].
  apply (f_equal (@rev N)) in Er. rewrite rev_involutive in Er. contradiction.
Qed.

Lemma sub_spaces_head t :
  starts_nonspace (rev t) = true -> t <> [] ->
  exists c r, sub_spaces true t = c :: r /\ isspace c = false.
Proof.
  induction t as [|c t IH]; intros He Hne; [contradiction |].
  simpl. destruct (isspace c) eqn:Hc.
  - destruct t as [|c' t'].
    + simpl in He. rewrite Hc in He. discriminate.
    + apply IH; [| discriminate].
      rewrite <- (ends_nonspace_tail c); [exact He | discriminate].
  - eauto.
Qed.

Lemma sub_spaces_single t : forall b,
  starts_nonspace (rev t) = true -> single_spaced (sub_spaces b t) = true.
Proof.
  induction t as [|c t IH]; intros b He; [reflexivity |].
  assert (Ht : t <> [] -> starts_nonspace (rev t) = true).
  { intros Hne. now rewrite <- (ends_nonspace_tail c). }
  change (sub_spaces b (c :: t))
    with (if isspace c then
            if b then sub_spaces true t else 0x20 :: sub_spaces true t
          else c :: sub_spaces false t).
  destruct (isspace c) eqn:Hc.
  - assert (Hne : t <> []).
    { intros ->. simpl in He. rewrite Hc in He. discriminate. }
    destruct b; [now apply IH, Ht |].
    destruct (sub_spaces_head t (Ht Hne) Hne) as (x & r & Hx & Hsp).
    pose proof (IH true (Ht Hne)) as Hs. rewrite Hx in Hs |- *.
    cbn [single_spaced] in Hs |- *. rewrite Hsp in Hs |- *. simpl in Hs |- *.
    exact Hs.
  - cbn [single_spaced]. rewrite Hc. simpl.
    destruct t as [|c' t']; [reflexivity |]. apply IH, Ht. discriminate.
Qed.

Lemma clean_text_normalized o : whitespace_normalized (clean_text o).
Proof.
  unfold clean_text, whitespace_normalized. split.
  - pose proof (strip_starts (or_empty o)) as H.
    destruct (strip (or_empty o)) as [|c r]; [reflexivity |].
    simpl in *. apply negb_true_iff in H. rewrite H. simpl. now rewrite H.
  - apply sub_spaces_single, strip_ends.
Qed.

Lemma single_spaced_ends s :
  single_spaced s = true -> starts_nonspace (rev s) = true.
Proof.
  induction s as [|c s IH]; [reflexivity |].
  intros H. cbn [single_spaced] in H. apply andb_true_iff in H as [Hc Hs].
  destruct s as [|c' s'].
  - simpl. destruct (isspace c); [| reflexivity].
    rewrite andb_false_r in Hc. discriminate.
  - rewrite ends_nonspace_tail; [auto | discriminate].
Qed.

Lemma single_spaced_sub s : single_spaced s = true -> sub_spaces false s = s.
Proof.
  induction s as [|c s IH]; [reflexivity |].
  intros H. cbn [single_spaced] in H. apply andb_true_iff in H as [Hc Hs].
  simpl. destruct (isspace c) eqn:Ec.
  - apply andb_true_iff in Hc as [Hc Hn]. apply N.eqb_eq in Hc. subst c.
    destruct s as [|c' s']; [discriminate |].
    apply negb_true_iff in Hn. specialize (IH Hs). simpl in IH |- *.
    rewrite Hn in IH |- *. now rewrite IH.
  - now rewrite (IH Hs).
Qed.

Lemma normalized_fixed s : whitespace_normalized s -> clean_text (Some s) = s.
Proof.
  intros [Hst Hsp]. unfold clean_text, strip, rstrip. simpl.
  rewrite (lstrip_id s Hst), (lstrip_id (rev s) (single_spaced_ends s Hsp)).
  rewrite rev_involutive. now apply single_spaced_sub.
Qed.

(** Normalizing twice is normalizing once. *)
Lemma clean_text_idempotent o : clean_text (Some (clean_text o)) = clean_text o.
Proof. apply normalized_fixed, clean_text_normalized. Qed.

Lemma normalized_no_final_newline s t :
  whitespace_normalized s -> rev s <> 0x0a :: t.
Proof.
  intros [_ Hsp] E. apply single_spaced_ends in Hsp. rewrite E in Hsp. discriminate.
Qed.

Lemma re_match_normalized r s :
  whitespace_normalized s -> re_match r s = matches r s.
Proof.
  intros Hn. unfold re_match.
  destruct (rev s) as [|c t] eqn:Er; [apply orb_false_r |].
  destruct (N.eq_dec c 0x0a) as [-> | Hc].
  - now apply normalized_no_final_newline in Er.
  - destruct c as [|p]; [apply orb_false_r |].
    do 4 (destruct p as [p|p|]; try apply orb_false_r). contradiction.
Qed.

(** ** Phone digits *)

Lemma sub_nondigits_decimal s : forallb isdecimal (sub_nondigits s) = true.
Proof.
  unfold sub_nondigits. induction s as [|c s IH]; [reflexivity |].
  rewrite filter_cons. destruct (decide (isdecimal c = true)) as [Hc|Hc]; [| exact IH].
  simpl. now rewrite Hc, IH.
Qed.

Lemma sub_nondigits_id s : forallb isdecimal s = true -> sub_nondigits s = s.
Proof.
  unfold sub_nondigits. induction s as [|c s IH]; [reflexivity |].
  simpl. intros H. apply andb_true_iff in H as [Hc Hs].
  rewrite filter_cons. destruct (decide (isdecimal c = true)); [| contradiction].
  now rewrite IH.
Qed.

Lemma re_match_digits r s :
  forallb isdecimal s = true -> re_match r s = matches r s.
Proof.
  intros Hd. unfold re_match.
  destruct (rev s) as [|c t] eqn:Er; [apply orb_false_r |].
  destruct (N.eq_dec c 0x0a) as [-> | Hc].
  - assert (Hin : In 0x0a s) by (apply in_rev; rewrite Er; now left).
    rewrite forallb_forall in Hd. apply Hd in Hin. discriminate.
  - destruct c as [|p]; [apply orb_false_r |].
    do 4 (destruct p as [p|p|]; try apply orb_false_r). contradiction.
Qed.

Lemma ascii_digit_decimal c : is_ascii_digit c = true -> isdecimal c = true.
Proof.
  intros H. unfold isdecimal, decimal_blocks. cbn [existsb].
  change (0x30 + 9) with 0x39. fold (is_ascii_digit c). now rewrite H.
Qed.

Lemma phone_match_iff p :
  forallb isdecimal p = true ->
  re_match PHONE_REGEX p = true <->
  (10 <= length p <= 15)%nat /\ forallb is_ascii_digit p = true.
Proof.
  intros Hd. rewrite (re_match_digits _ _ Hd), matches_lang.
  unfold PHONE_REGEX. apply lang_rep_cls. lia.
Qed.

(** ** Names *)

Lemma name_match_iff s :
  whitespace_normalized s -> re_match NAME_REGEX s = true <-> name_shape s.
Proof.
  intros Hn. rewrite (re_match_normalized _ _ Hn), matches_lang.
  unfold NAME_REGEX, name_shape. destruct s as [|c rest].
  - split; [intros H; now apply lang_cls_nil in H | intros (? & ? & ? & _); discriminate].
  - rewrite lang_cls_cons, lang_rep_cls by lia. split.
    + intros (Hc & Hl & Ha). exists c, rest. auto.
    + intros (c0 & r0 & E & Hc & Hl & Ha). injection E as -> ->. auto.
Qed.

(** ** The validator *)

Lemma validate_payload_rules form :
  validate_payload form =
  match first_violated form with
  | Some r => Rejected (reason_of r)
  | None => Accepted (normalized_record form)
  end.
Proof.
  unfold validate_payload, first_violated, rule_order.
  cbn [List.find violated reason_of]. unfold out_of_bounds.
  repeat match goal with
         | |- context [if ?b then _ else _] =>
             destruct b; cbn [negb reason_of]; try reflexivity
         end.
Qed.

Lemma first_violated_some form r :
  first_violated form = Some r <->
  violated form r = true /\
  forall r', (rank r' < rank r)%nat -> violated form r' = false.
Proof.
  unfold first_violated, rule_order. cbn [List.find].
  set (b0 := violated form HoneypotRule). set (b1 := violated form NameRule).
  set (b2 := violated form DepartmentRule). set (b3 := violated form EmailRule).
  set (b4 := violated form PhoneRule). set (b5 := violated form InterestRule).
  set (b6 := violated form ShortGoalRule). set (b7 := violated form LongGoalRule).
  assert (Hall : forall q, violated form q =
                           match q with
                           | HoneypotRule => b0 | NameRule => b1
                           | DepartmentRule => b2 | EmailRule => b3
                           | PhoneRule => b4 | InterestRule => b5
                           | ShortGoalRule => b6 | LongGoalRule => b7
                           end) by (now intros []).
  rewrite Hall. split.
  - intros H. split.
    + destruct b0, b1, b2, b3, b4, b5, b6, b7; simplify_eq; reflexivity.
    + intros r' Hlt. rewrite Hall.
      destruct b0, b1, b2, b3, b4, b5, b6, b7; simplify_eq;
        destruct r'; simpl in Hlt; solve [reflexivity | lia].
  - intros [Hr Hbefore].
    assert (H0 : forall q, (rank q < rank r)%nat ->
                           match q with
                           | HoneypotRule => b0 | NameRule => b1
                           | DepartmentRule => b2 | EmailRule => b3
                           | PhoneRule => b4 | InterestRule => b5
                           | ShortGoalRule => b6 | LongGoalRule => b7
                           end = false).
    { intros q Hq. rewrite <- Hall. auto. }
    clearbody b0 b1 b2 b3 b4 b5 b6 b7. clear Hall Hbefore.
    pose proof (H0 HoneypotRule) as A0. pose proof (H0 NameRule) as A1.
    pose proof (H0 DepartmentRule) as A2. pose proof (H0 EmailRule) as A3.
    pose proof (H0 PhoneRule) as A4. pose proof (H0 InterestRule) as A5.
    pose proof (H0 ShortGoalRule) as A6. clear H0.
    destruct r; simpl in *; subst;
      repeat match goal with
             | A : (_ < _)%nat -> _ |- _ =>
                 first [ specialize (A ltac:(lia)) | clear A ]
             end; subst; reflexivity.
Qed.

Lemma first_violated_none form :
  first_violated form = None <-> forall r, violated form r = false.
Proof.
  unfold first_violated, rule_order. split.
  - intros H r. pose proof (find_none _ _ H r) as Hn. apply Hn.
    destruct r; simpl; tauto.
  - intros H. cbn [List.find]. now rewrite !H.
Qed.

Lemma normalized_record_ok form :
  violated form PhoneRule = false -> fully_normalized (normalized_record form).
Proof.
  intros Hp. unfold fully_normalized, normalized_record.
  eexists _, _, _, _, _, _, _. split; [reflexivity |]. split.
  - repeat constructor; apply clean_text_normalized.
  - simpl in Hp. apply negb_false_iff in Hp.
    apply phone_match_iff in Hp; [tauto | apply sub_nondigits_decimal].
Qed.

Lemma reason_of_inj r r' : reason_of r = reason_of r' -> r = r'.
Proof. destruct r, r'; simpl; intros H; try reflexivity; discriminate. Qed.

Lemma rejected_iff form r :
  validate_payload form = Rejected (reason_of r) <-> first_violated form = Some r.
Proof.
  rewrite validate_payload_rules. destruct (first_violated form) as [q|].
  - split; [intros H; injection H as H; now apply reason_of_inj in H as -> |].
    now intros [= ->].
  - split; discriminate.
Qed.

(** C6. A form whose honeypot field [website] is not empty is rejected with
    the bot reason, whatever its other fields hold. *)
Theorem honeypot_rejects (form : gmap string str) (w : str) :
  form !! "website" = Some w -> w <> [] ->
  validate_payload form = Rejected "Bot detected.".
Proof.
  intros Hw Hne. unfold validate_payload. rewrite Hw.
  destruct w as [|c w]; [contradiction | reflexivity].
Qed.

Lemma honeypot_rejects_witness :
  (<["website" := u "http://spam.example"]> sample_form) !! "website"
    = Some (u "http://spam.example")
  /\ u "http://spam.example" <> []
  /\ validate_payload (<["website" := u "http://spam.example"]> sample_form)
     = Rejected "Bot detected.".
Proof.
  assert (H1 : (<["website" := u "http://spam.example"]> sample_form) !! "website"
               = Some (u "http://spam.example")) by by_evaluation.
  assert (H2 : u "http://spam.example" <> []) by discriminate.
  split; [exact H1 |]. split; [exact H2 |].
  exact (honeypot_rejects _ _ H1 H2).
Defined.

(** C7 as stated fails: ten ASCII digits followed by ARABIC-INDIC DIGIT ONE
    (U+0661) survive the stripping unchanged, so 11 digits remain (10 of them
    ASCII), and the phone is rejected.  Neither way of counting the remaining
    digits makes "accepted exactly when 10 to 15 digits remain" true. *)
Lemma phone_digit_count_not_decisive :
  ~ (forall raw : str,
       re_match PHONE_REGEX (sub_nondigits raw) = true <->
       (10 <= length (sub_nondigits raw) <= 15)%nat)
  /\ ~ (forall raw : str,
       re_match PHONE_REGEX (sub_nondigits raw) = true <->
       (10 <= length (filter (fun c => is_ascii_digit c = true) raw) <= 15)%nat).
Proof.
  assert (Hrej : re_match PHONE_REGEX (sub_nondigits (u "1234567890" ++ [0x661])) = false)
    by by_evaluation.
  split; intros H; specialize (H (u "1234567890" ++ [0x661]));
    rewrite Hrej in H; destruct H as [_ H];
    (assert (false = true) as Habs; [apply H; vm_compute; lia | discriminate Habs]).
Qed.

(** ** The routes, branch by branch *)

Lemma validate_csrf_iff (token : option str) (sess : gmap string sval) :
  validate_csrf token sess = true <->
  exists t, token = Some t /\ t <> [] /\ sess !! "csrf_token" = Some (SStr t).
Proof.
  unfold validate_csrf. split.
  - destruct token as [[|c t]|]; try discriminate.
    intros H. apply bool_decide_eq_true in H. exists (c :: t). auto.
  - intros (t & -> & Hne & Hs). destruct t as [|c t]; [contradiction |].
    now apply bool_decide_eq_true.
Qed.

Lemma validate_csrf_falsy (token : option str) (sess : gmap string sval) :
  truthy token = false -> validate_csrf token sess = false.
Proof. destruct token as [[|c t]|]; simpl; auto; discriminate. Qed.

Lemma preview_invalid ev form w :
  validate_csrf (form !! "csrf_token") (session w) = false ->
  preview ev form w = invalid_session w.
Proof. intros H. unfold preview, bind, get_session. now rewrite H. Qed.

Lemma submit_invalid cfg ev form w :
  validate_csrf (form !! "csrf_token") (session w) = false ->
  submit cfg ev form w = invalid_session w.
Proof. intros H. unfold submit, bind, get_session. now rewrite H. Qed.

Lemma preview_rejected ev form w reason :
  validate_csrf (form !! "csrf_token") (session w) = true ->
  validate_payload form = Rejected reason ->
  preview ev form w =
  (Ok (Redirect "index"),
   set_session
     (fun sess =>
        <["form_data" := SDict (raw_echo form)]>
          (<["_flashes" := SList (flashes sess ++ [reason])]> sess)) w).
Proof.
  intros H Hv. unfold preview, bind, get_session. rewrite H, Hv. reflexivity.
Qed.

Lemma preview_accepted ev form w data :
  validate_csrf (form !! "csrf_token") (session w) = true ->
  validate_payload form = Accepted data ->
  preview ev form w =
  (Raise (TemplateNotFound "BASE_HEAD"),
   add_render_call (PREVIEW_TPL data) (hex (urandom ev))
     (set_session
        (fun sess =>
           <["csrf_token" := SStr (hex (urandom ev))]>
             (<["form_data" := SDict data]> sess)) w)).
Proof.
  intros H Hv. unfold preview, bind, get_session. rewrite H, Hv. reflexivity.
Qed.

Lemma submit_edit cfg ev form w :
  validate_csrf (form !! "csrf_token") (session w) = true ->
  form !! "action" = Some (u "edit") ->
  submit cfg ev form w = (Ok (Redirect "index"), w).
Proof.
  intros H Ha. unfold submit, bind, get_session. rewrite H, Ha. reflexivity.
Qed.

Lemma submit_confirm cfg ev form w data :
  validate_csrf (form !! "csrf_token") (session w) = true ->
  form !! "action" <> Some (u "edit") ->
  session w !! "form_data" = Some (SDict data) ->
  data <> ∅ ->
  submit cfg ev form w = confirm_steps cfg ev data w.
Proof.
  intros H Ha Hd Hne. unfold submit at 1, bind at 1, get_session. rewrite H.
  cbn [negb]. rewrite (bool_decide_eq_false_2 _ Ha), Hd.
  now rewrite (bool_decide_eq_false_2 _ Hne).
Qed.

Lemma index_eq ev w :
  index ev w =
  (Raise (TemplateNotFound "BASE_HEAD"),
   add_render_call (FORM_TPL (pending w)) (hex (urandom ev))
     (set_session (insert "csrf_token" (SStr (hex (urandom ev)))) w)).
Proof.
  unfold index, bind, get_session, new_csrf_token, render_template_string,
    modify_session, bind, ret, pending. simpl.
  rewrite !lookup_insert_ne by done. reflexivity.
Qed.

(** ** The notification sink *)

Lemma has_fields_lookup d k : has_fields d -> k ∈ field_names -> is_Some (d !! k).
Proof. unfold has_fields. rewrite Forall_forall. auto. Qed.


(** Case analysis on everything [send_email] looks at. *)
Ltac send_email_cases :=
  unfold bind, getitem, set_header, try_except, smtp_send, ret, raise;
  repeat match goal with
         | |- context [match ?d !! ?k with Some _ => _ | None => _ end] =>
             destruct (d !! k)
         | |- context [match header_fault ?ev ?n ?v with Some _ => _ | None => _ end] =>
             destruct (header_fault ev n v)
         end.

Lemma send_email_frame cfg ev data w :
  session (send_email cfg ev data w).2 = session w
  /\ csv_file (send_email cfg ev data w).2 = csv_file w.
Proof.
  unfold send_email. destruct (negb (truthy _ && _)); [now split |].
  send_email_cases; try (now split).
  destruct (smtp_fault ev); [destruct (smtp_accepted ev) |]; now split.
Qed.

Lemma send_email_more_frame cfg ev data w :
  render_calls (send_email cfg ev data w).2 = render_calls w.
Proof.
  unfold send_email. destruct (negb (truthy _ && _)); [reflexivity |].
  send_email_cases; try reflexivity.
  destruct (smtp_fault ev); [destruct (smtp_accepted ev) |]; reflexivity.
Qed.

Lemma send_email_outbox cfg ev data w :
  outbox (send_email cfg ev data w).2 = outbox w
  \/ exists m, outbox (send_email cfg ev data w).2 = outbox w ++ [m].
Proof.
  unfold send_email. destruct (negb (truthy _ && _)); [now left |].
  send_email_cases; try (now left).
  destruct (smtp_fault ev); [destruct (smtp_accepted ev) |]; simpl; eauto.
Qed.

(** With the seven fields present and the three headers accepted,
    [send_email] returns. *)
Lemma send_email_returns cfg ev data w :
  has_fields data ->
  headers_accepted cfg ev data ->
  exists b, (send_email cfg ev data w).1 = Ok b
    /\ (b = true <->
        truthy (MAIL_USER cfg) && truthy (MAIL_PASS cfg) = true /\ smtp_fault ev = None).
Proof.
  intros Hf Hh. unfold send_email.
  destruct (truthy (MAIL_USER cfg) && truthy (MAIL_PASS cfg)) eqn:Hc; cbn [negb].
  2:{ exists false. repeat split; try discriminate; intros [? _]; discriminate. }
  destruct (has_fields_lookup data "name" Hf) as [n Hn]; [apply list_elem_of_here |].
  destruct (has_fields_lookup data "department" Hf) as [d Hd];
    [apply list_elem_of_further, list_elem_of_here |].
  destruct (Hh n d Hn Hd) as (H1 & H2 & H3).
  unfold bind, getitem, set_header, try_except, smtp_send, ret, raise.
  rewrite Hn, Hd, H1, H2, H3.
  repeat match goal with
         | |- context [match ?d !! ?k with Some _ => _ | None => _ end] =>
             let Hk := fresh in
             destruct (has_fields_lookup d k Hf) as [? Hk];
             [ repeat first [ apply list_elem_of_here | apply list_elem_of_further ]
             | rewrite Hk ]
         end.
  destruct (smtp_fault ev) as [e|].
  - exists false. repeat split; try discriminate. intros [_ ?]; discriminate.
  - exists true. repeat split; auto; discriminate.
Qed.

(** With the seven fields present, [send_email] raises only what the email
    library raised on one of the three headers. *)
Lemma send_email_raise_has_fields cfg ev data w e :
  has_fields data ->
  (send_email cfg ev data w).1 = Raise e ->
  exists name department,
    data !! "name" = Some name /\ data !! "department" = Some department
    /\ (header_fault ev "Subject" (subject_of name department) = Some e
        \/ header_fault ev "From" (or_empty (MAIL_USER cfg)) = Some e
        \/ header_fault ev "To" (OWNER_EMAIL cfg) = Some e).
Proof.
  intros Hf. unfold send_email. destruct (negb (truthy _ && _)); [discriminate |].
  destruct (has_fields_lookup data "name" Hf) as [n Hn]; [apply list_elem_of_here |].
  destruct (has_fields_lookup data "department" Hf) as [d Hd];
    [apply list_elem_of_further, list_elem_of_here |].
  unfold bind, getitem, set_header, try_except, smtp_send, ret, raise.
  rewrite Hn, Hd.
  destruct (header_fault ev "Subject" (subject_of n d)) as [e1|] eqn:H1; cbn [fst].
  { intros [= <-]. exists n, d. auto. }
  destruct (header_fault ev "From" (or_empty (MAIL_USER cfg))) as [e2|] eqn:H2; cbn [fst].
  { intros [= <-]. exists n, d. auto. }
  destruct (header_fault ev "To" (OWNER_EMAIL cfg)) as [e3|] eqn:H3; cbn [fst].
  { intros [= <-]. exists n, d. auto. }
  repeat match goal with
         | |- context [match ?d !! ?k with Some _ => _ | None => _ end] =>
             let Hk := fresh in
             destruct (has_fields_lookup d k Hf) as [? Hk];
             [ repeat first [ apply list_elem_of_here | apply list_elem_of_further ]
             | rewrite Hk ]
         end.
  destruct (smtp_fault ev); discriminate.
Qed.

(** ** The persistence sink and the confirm step *)

Lemma save_to_csv_fault ev data w e :
  fs_fault ev = Some e -> save_to_csv ev data w = (Raise e, w).
Proof. intros H. unfold save_to_csv. now rewrite H. Qed.

Lemma save_to_csv_frame ev data w :
  session (save_to_csv ev data w).2 = session w
  /\ outbox (save_to_csv ev data w).2 = outbox w.
Proof.
  unfold save_to_csv. destruct (fs_fault ev); [now split |].
  destruct (bool_decide _); now split.
Qed.

Lemma fits_header_row ev data :
  fits_header data ->
  dom (data ∪ {["timestamp" := FStr (now_iso ev)]}) ⊆ list_to_set fieldnames.
Proof.
  unfold fits_header. intros H. rewrite dom_union_L, dom_singleton_L.
  apply union_least; [exact H |].
  apply singleton_subseteq_l, elem_of_list_to_set. apply list_elem_of_here.
Qed.

Lemma save_to_csv_ok ev data w :
  fs_fault ev = None -> fits_header data ->
  save_to_csv ev data w = (Ok tt, appended ev data w).
Proof.
  intros H Hfit. unfold save_to_csv, appended. rewrite H.
  rewrite (bool_decide_eq_true_2 _ (fits_header_row ev data Hfit)).
  destruct (csv_file w); reflexivity.
Qed.

Lemma confirm_steps_eq cfg ev data w :
  confirm_steps cfg ev data w =
  match save_to_csv ev data w with
  | (Ok _, w1) =>
      match send_email cfg ev data w1 with
      | (Ok _, w2) =>
          (Raise (TemplateNotFound "BASE_HEAD"),
           add_render_call SUCCESS_TPL (hex (urandom ev))
             (set_session
                (fun sess => <["csrf_token" := SStr (hex (urandom ev))]>
                               (delete "form_data" sess)) w2))
      | (Raise e, w2) => (Raise e, w2)
      end
  | (Raise e, w1) => (Raise e, w1)
  end.
Proof.
  unfold confirm_steps, bind.
  destruct (save_to_csv ev data w) as [[[]|e] w1]; [| reflexivity].
  destruct (send_email cfg ev data w1) as [[b|e] w2]; reflexivity.
Qed.

(** The confirm steps always end in an exception; the session is changed
    exactly when both sinks returned. *)
Lemma confirm_cases cfg ev data w :
  let out := confirm_steps cfg ev data w in
  (exists e, out.1 = Raise e)
  /\ session out.2 =
     if sinks_return cfg ev data w
     then <["csrf_token" := SStr (hex (urandom ev))]> (delete "form_data" (session w))
     else session w.
Proof.
  cbv zeta. rewrite confirm_steps_eq. unfold sinks_return, mail_returns.
  pose proof (save_to_csv_frame ev data w) as [Hs _].
  destruct (save_to_csv ev data w) as [[[]|e] w1]; simpl in Hs.
  2:{ split; [eauto | exact Hs]. }
  pose proof (send_email_frame cfg ev data w1) as [Hs1 _].
  destruct (send_email cfg ev data w1) as [[b|e] w2]; simpl in Hs1 |- *.
  - split; [eauto |]. now rewrite Hs1, Hs.
  - split; [eauto |]. congruence.
Qed.

Lemma sinks_return_true cfg ev data w :
  has_fields data -> fits_header data -> headers_accepted cfg ev data ->
  fs_fault ev = None ->
  sinks_return cfg ev data w = true.
Proof.
  intros Hf Hfit Hh Hfs. unfold sinks_return, mail_returns.
  rewrite (save_to_csv_ok ev data w Hfs Hfit).
  destruct (send_email_returns cfg ev data (appended ev data w) Hf Hh) as (b & Hb & _).
  now rewrite Hb.
Qed.

(** ** What the session can hold *)

Lemma has_fields_raw_echo form : has_fields (raw_echo form).
Proof.
  unfold has_fields, field_names, raw_echo.
  repeat constructor; simplify_map_eq; eauto.
Qed.

Lemma has_fields_normalized_record form : has_fields (normalized_record form).
Proof.
  unfold has_fields, field_names, normalized_record, record_of.
  repeat constructor; simplify_map_eq; eauto.
Qed.

Lemma has_fields_nonempty d : has_fields d -> d <> ∅.
Proof.
  intros Hf ->. destruct (has_fields_lookup ∅ "name" Hf) as [v Hv].
  - apply list_elem_of_here.
  - rewrite lookup_empty in Hv. discriminate.
Qed.

Lemma accepted_normalized_record form data :
  validate_payload form = Accepted data -> data = normalized_record form.
Proof.
  rewrite validate_payload_rules. destruct (first_violated form); [discriminate |].
  now intros [= <-].
Qed.

Lemma handle_form_data_ok cfg ev req w :
  form_data_ok (session w) -> form_data_ok (session (handle cfg ev req w).2).
Proof.
  intros Hok. destruct req as [|form|form]; cbn [handle].
  - rewrite index_eq. unfold form_data_ok in *. simpl.
    now rewrite lookup_insert_ne by done.
  - destruct (validate_csrf (form !! "csrf_token") (session w)) eqn:Hc.
    + destruct (validate_payload form) as [reason|data] eqn:Hv.
      * rewrite (preview_rejected ev form w reason Hc Hv).
        unfold form_data_ok. simpl. rewrite lookup_insert_eq.
        apply has_fields_raw_echo.
      * rewrite (preview_accepted ev form w data Hc Hv).
        unfold form_data_ok. simpl.
        rewrite lookup_insert_ne, lookup_insert_eq by done.
        rewrite (accepted_normalized_record form data Hv).
        apply has_fields_normalized_record.
    + rewrite (preview_invalid ev form w Hc). unfold form_data_ok in *. simpl.
      now rewrite lookup_insert_ne by done.
  - destruct (validate_csrf (form !! "csrf_token") (session w)) eqn:Hc.
    2:{ rewrite (submit_invalid cfg ev form w Hc). unfold form_data_ok in *. simpl.
        now rewrite lookup_insert_ne by done. }
    destruct (decide (form !! "action" = Some (u "edit"))) as [Ha|Ha].
    { now rewrite (submit_edit cfg ev form w Hc Ha). }
    unfold form_data_ok in Hok.
    destruct (session w !! "form_data") as [[s|data|l]|] eqn:Hd; try contradiction.
    + rewrite (submit_confirm cfg ev form w data Hc Ha Hd (has_fields_nonempty _ Hok)).
      destruct (confirm_cases cfg ev data w) as [_ Hs].
      unfold form_data_ok. rewrite Hs. destruct (sinks_return cfg ev data w).
      * now rewrite lookup_insert_ne, lookup_delete_eq by done.
      * now rewrite Hd.
    + unfold submit, bind, get_session. rewrite Hc. cbn [negb].
      rewrite (bool_decide_eq_false_2 _ Ha), Hd. unfold form_data_ok. simpl.
      now rewrite lookup_insert_ne, Hd by done.
Qed.

Lemma reachable_form_data_ok cfg w : reachable cfg w -> form_data_ok (session w).
Proof.
  induction 1 as [w Hf | w ev req _ IH].
  - unfold form_data_ok. rewrite Hf. now rewrite lookup_empty.
  - now apply handle_form_data_ok.
Qed.

Lemma reachable_pending cfg w :
  reachable cfg w -> session w !! "form_data" <> None ->
  session w !! "form_data" = Some (SDict (pending w)) /\ has_fields (pending w).
Proof.
  intros Hr Hn. apply reachable_form_data_ok in Hr.
  unfold form_data_ok, pending in *.
  destruct (session w !! "form_data") as [[s|d|l]|]; try contradiction; auto.
Qed.

Lemma run_reachable cfg reqs : forall w,
  reachable cfg w -> reachable cfg (run cfg reqs w).
Proof.
  induction reqs as [|[ev req] reqs IH]; intros w Hw; simpl; [exact Hw |].
  apply IH. now constructor.
Qed.

(** Served without debug, a request leaves the world its view function
    left. *)
Lemma serve_production cfg ev req w : serve false cfg ev req w = handle cfg ev req w.
Proof. unfold serve. now destruct (handle cfg ev req w) as [[r|e] w']. Qed.

Lemma run_served_production cfg reqs : forall w,
  run_served false cfg reqs w = run cfg reqs w.
Proof.
  induction reqs as [|[ev req] reqs IH]; intros w; simpl; [reflexivity |].
  now rewrite serve_production, IH.
Qed.

(** ** The workflow *)

Lemma accepted_no_violation form data :
  validate_payload form = Accepted data -> forall r, violated form r = false.
Proof.
  rewrite validate_payload_rules.
  destruct (first_violated form) eqn:Hf; [discriminate |].
  intros _. now apply first_violated_none.
Qed.

Lemma dom_raw_echo form : dom (raw_echo form) = list_to_set field_names.
Proof.
  unfold raw_echo, field_names. rewrite !dom_insert_L, dom_empty_L.
  cbn [list_to_set foldr]. set_solver.
Qed.

Lemma dom_normalized_record form : dom (normalized_record form) = list_to_set field_names.
Proof.
  unfold normalized_record, record_of, field_names.
  rewrite !dom_insert_L, dom_empty_L. cbn [list_to_set foldr]. set_solver.
Qed.

Lemma field_names_fit :
  (list_to_set field_names : gset string) ⊆ list_to_set fieldnames.
Proof.
  intros k Hk. apply elem_of_list_to_set in Hk. apply elem_of_list_to_set.
  unfold fieldnames. now apply list_elem_of_further.
Qed.

(** [submit] and [preview], branch by branch. *)
Lemma submit_cases cfg ev form w :
  submit cfg ev form w =
  if negb (validate_csrf (form !! "csrf_token") (session w)) then invalid_session w
  else if bool_decide (form !! "action" = Some (u "edit")) then (Ok (Redirect "index"), w)
  else match session w !! "form_data" with
       | Some (SDict data) =>
           if bool_decide (data = ∅) then
             (Ok (Redirect "index"),
              flashed "Session expired. Please re-enter your details." w)
           else confirm_steps cfg ev data w
       | None =>
           (Ok (Redirect "index"),
            flashed "Session expired. Please re-enter your details." w)
       | Some _ => (Raise (TypeError "form_data is not a mapping"), w)
       end.
Proof.
  unfold submit, bind at 1, get_session.
  destruct (validate_csrf _ _); cbn [negb]; [| reflexivity].
  destruct (bool_decide (form !! "action" = Some (u "edit"))); [reflexivity |].
  destruct (session w !! "form_data") as [[s|data|l]|]; try reflexivity.
  destruct (bool_decide (data = ∅)); reflexivity.
Qed.

Lemma preview_cases ev form w :
  preview ev form w =
  if negb (validate_csrf (form !! "csrf_token") (session w)) then invalid_session w
  else match validate_payload form with
       | Rejected reason =>
           (Ok (Redirect "index"),
            set_session (insert "form_data" (SDict (raw_echo form))) (flashed reason w))
       | Accepted data =>
           (Raise (TemplateNotFound "BASE_HEAD"),
            add_render_call (PREVIEW_TPL data) (hex (urandom ev))
              (set_session
                 (fun sess => <["csrf_token" := SStr (hex (urandom ev))]>
                                (<["form_data" := SDict data]> sess)) w))
       end.
Proof.
  unfold preview, bind at 1, get_session.
  destruct (validate_csrf _ _); cbn [negb]; [| reflexivity].
  destruct (validate_payload form); reflexivity.
Qed.



(** C1 fails on the code when the application is served without debug.
    [preview] stores the raw, rejected fields under the same session key as a
    validated record and leaves the token in place, so a confirm request
    that follows a rejected preview finalizes them: after [GET /], a
    [POST /preview] whose name is "A" (rejected) and a [POST /submit] with
    action confirm and the same token, the raw fields are appended to the
    log and mailed before the request ends in the exception of the template
    lookup, and no form at all validates to that record.  Under
    [app.run(debug=True)] the same three requests reach no sink, because the
    token minted by [GET /] is never saved. *)
Lemma unvalidated_record_finalized :
  let requests :=
    [(sample_env Byte.x3a, GET_index);
     (sample_env Byte.x5b, POST_preview short_name_form);
     (sample_env Byte.x7c, POST_submit (confirm_form first_token))] in
  let out := serve false sample_cfg (sample_env Byte.x7c)
               (POST_submit (confirm_form first_token)) after_rejected_preview in
  reachable sample_cfg after_rejected_preview
  /\ out.2 = run_served false sample_cfg requests empty_world
  /\ validate_payload short_name_form = Rejected "Please enter a valid full name."
  /\ session after_rejected_preview !! "form_data"
     = Some (SDict (raw_echo short_name_form))
  /\ csv_file out.2 =
     Some [Header;
           Row (raw_echo short_name_form
                ∪ {["timestamp" := FStr (u "2024-01-01T10:00:00")]})]
  /\ length (outbox out.2) = 1%nat
  /\ out.1 = Raise (TemplateNotFound "BASE_HEAD")
  /\ raw_echo short_name_form !! "name" = Some (FStr (u "A"))
  /\ csv_file (run_served true sample_cfg requests empty_world) = None
  /\ outbox (run_served true sample_cfg requests empty_world) = []
  /\ forall form, validate_payload form <> Accepted (raw_echo short_name_form).
Proof.
  cbv zeta.
  split; [apply run_reachable, reach_fresh; reflexivity |].
  do 9 (split; [by_evaluation |]).
  intros form Hv. pose proof (accepted_normalized_record _ _ Hv) as E.
  apply (f_equal (fun d : gmap string field => d !! "name")) in E.
  assert (Hraw : raw_echo short_name_form !! "name" = Some (FStr (u "A")))
    by by_evaluation.
  rewrite Hraw in E. unfold normalized_record, record_of in E.
  rewrite lookup_insert_eq in E. injection E as E.
  pose proof (accepted_no_violation _ _ Hv NameRule) as Hn.
  cbn [violated] in Hn. rewrite <- E in Hn. vm_compute in Hn. discriminate.
Qed.







(** C4. When the append to the log raises, the exception leaves [submit]
    uncaught and nothing else has happened: no message was sent, the session
    still holds the pending record and its token, and no page was
    rendered. *)
Theorem persistence_failure_propagates cfg ev form w data e :
  validate_csrf (form !! "csrf_token") (session w) = true ->
  form !! "action" <> Some (u "edit") ->
  session w !! "form_data" = Some (SDict data) ->
  data <> ∅ ->
  fs_fault ev = Some e ->
  submit cfg ev form w = (Raise e, w)
  /\ outbox (submit cfg ev form w).2 = outbox w
  /\ session (submit cfg ev form w).2 !! "form_data" = Some (SDict data)
  /\ is_render (submit cfg ev form w).1 = false.
Proof.
  intros Hc Ha Hd Hne Hfs.
  assert (E : submit cfg ev form w = (Raise e, w)).
  { rewrite (submit_confirm cfg ev form w data Hc Ha Hd Hne), confirm_steps_eq.
    now rewrite (save_to_csv_fault ev data w e Hfs). }
  rewrite E. auto.
Qed.

Lemma persistence_failure_propagates_witness :
  validate_csrf (confirm_form second_token !! "csrf_token") (session after_preview) = true
  /\ confirm_form second_token !! "action" <> Some (u "edit")
  /\ session after_preview !! "form_data" = Some (SDict (normalized_record good_form))
  /\ normalized_record good_form <> ∅
  /\ fs_fault disk_full_env = Some (OSError "No space left on device")
  /\ submit sample_cfg disk_full_env (confirm_form second_token) after_preview
     = (Raise (OSError "No space left on device"), after_preview).
Proof.
  assert (H1 : validate_csrf (confirm_form second_token !! "csrf_token")
                 (session after_preview) = true) by by_evaluation.
  assert (H2 : confirm_form second_token !! "action" <> Some (u "edit"))
    by (vm_compute; discriminate).
  assert (H3 : session after_preview !! "form_data"
               = Some (SDict (normalized_record good_form)))
    by by_evaluation.
  assert (H4 : normalized_record good_form <> ∅)
    by (apply has_fields_nonempty, has_fields_normalized_record).
  repeat (split; [assumption || reflexivity |]).
  exact (proj1 (persistence_failure_propagates sample_cfg disk_full_env
                  (confirm_form second_token) after_preview _ _
                  H1 H2 H3 H4 eq_refl)).
Defined.

(** C9. The edit action changes nothing: with a matching token,
    [POST /submit] with action edit redirects to the form and returns the
    world it was given, so the pending record is still in the session, and
    the next [GET /] reads it there and hands it to the form template. *)
Theorem edit_keeps_pending_record cfg ev form w :
  validate_csrf (form !! "csrf_token") (session w) = true ->
  form !! "action" = Some (u "edit") ->
  submit cfg ev form w = (Ok (Redirect "index"), w)
  /\ session (submit cfg ev form w).2 !! "form_data" = session w !! "form_data"
  /\ pending (submit cfg ev form w).2 = pending w
  /\ forall ev',
       render_calls (index ev' (submit cfg ev form w).2).2
       = render_calls w ++ [(FORM_TPL (pending w), hex (urandom ev'))].
Proof.
  intros Hc Ha. rewrite (submit_edit cfg ev form w Hc Ha).
  split; [reflexivity |]. split; [reflexivity |]. split; [reflexivity |].
  intros ev'. now rewrite index_eq.
Qed.

Lemma edit_keeps_pending_record_witness :
  validate_csrf (edit_form second_token !! "csrf_token") (session after_preview) = true
  /\ edit_form second_token !! "action" = Some (u "edit")
  /\ submit sample_cfg (sample_env Byte.x7c) (edit_form second_token) after_preview
     = (Ok (Redirect "index"), after_preview).
Proof.
  assert (H1 : validate_csrf (edit_form second_token !! "csrf_token")
                 (session after_preview) = true) by by_evaluation.
  assert (H2 : edit_form second_token !! "action" = Some (u "edit"))
    by by_evaluation.
  repeat (split; [assumption |]).
  exact (proj1 (edit_keeps_pending_record sample_cfg (sample_env Byte.x7c)
                  (edit_form second_token) after_preview H1 H2)).
Defined.

(** C10. A state-changing request whose csrf token is missing or empty takes
    the invalid-session path in every session state, also when the session
    stores no token at all. *)
Theorem missing_token_rejected cfg ev req w :
  state_changing req = true ->
  truthy (token_of req) = false ->
  handle cfg ev req w = invalid_session w.
Proof.
  intros Hsc Ht. destruct req as [|form|form]; [discriminate | |]; cbn [handle].
  - apply preview_invalid, validate_csrf_falsy, Ht.
  - apply submit_invalid, validate_csrf_falsy, Ht.
Qed.

Lemma missing_token_rejected_witness :
  state_changing (POST_submit (<["action" := u "confirm"]> ∅)) = true
  /\ truthy (token_of (POST_submit (<["action" := u "confirm"]> ∅))) = false
  /\ session empty_world !! "csrf_token" = None
  /\ handle sample_cfg (sample_env Byte.x3a)
       (POST_submit (<["action" := u "confirm"]> ∅)) empty_world
     = invalid_session empty_world.
Proof.
  assert (H2 : truthy (token_of (POST_submit (<["action" := u "confirm"]> ∅))) = false)
    by by_evaluation.
  split; [reflexivity |]. split; [exact H2 |]. split; [reflexivity |].
  exact (missing_token_rejected sample_cfg (sample_env Byte.x3a)
           (POST_submit (<["action" := u "confirm"]> ∅)) empty_world eq_refl H2).
Defined.

(** * Further properties of the validator *)

Lemma lstrip_length s : (length (lstrip s) <= length s)%nat.
Proof.
  induction s as [|c s IH]; simpl; [lia |].
  destruct (isspace c); simpl; lia.
Qed.

Lemma sub_spaces_length s : forall b, (length (sub_spaces b s) <= length s)%nat.
Proof.
  induction s as [|c s IH]; intros b; simpl; [lia |].
  pose proof (IH true). pose proof (IH false).
  destruct (isspace c); [destruct b |]; simpl; lia.
Qed.

Lemma clean_text_length o : (length (clean_text o) <= length (or_empty o))%nat.
Proof.
  unfold clean_text, strip, rstrip.
  pose proof (sub_spaces_length (rev (lstrip (rev (lstrip (or_empty o))))) false) as H1.
  rewrite length_rev in H1.
  pose proof (lstrip_length (rev (lstrip (or_empty o)))) as H2.
  rewrite length_rev in H2.
  pose proof (lstrip_length (or_empty o)). lia.
Qed.

Lemma single_spaced_only_spaces s :
  single_spaced s = true -> Forall (fun c => isspace c = true -> c = 0x20) s.
Proof.
  induction s as [|c s IH]; intros H; constructor.
  - cbn [single_spaced] in H. apply andb_true_iff in H as [Hc _].
    intros Hsp. rewrite Hsp in Hc. apply andb_true_iff in Hc as [Hc _].
    now apply N.eqb_eq in Hc.
  - apply IH. cbn [single_spaced] in H. now apply andb_true_iff in H as [_ H].
Qed.

(** X1. [clean_text] computes a normal form: its result has no whitespace at
    either end and no whitespace but single spaces inside, it is never longer
    than the input, cleaning it again changes nothing, and the texts that
    cleaning leaves unchanged are exactly the normalized ones. *)
Theorem clean_text_normal_form (o : option str) (s : str) :
  whitespace_normalized (clean_text o)
  /\ Forall (fun c => isspace c = true -> c = 0x20) (clean_text o)
  /\ (length (clean_text o) <= length (or_empty o))%nat
  /\ clean_text (Some (clean_text o)) = clean_text o
  /\ (clean_text (Some s) = s <-> whitespace_normalized s).
Proof.
  pose proof (clean_text_normalized o) as Hn.
  split; [exact Hn |].
  split; [apply single_spaced_only_spaces, Hn |].
  split; [apply clean_text_length |].
  split; [apply normalized_fixed, Hn |].
  split; [intros <-; apply clean_text_normalized | apply normalized_fixed].
Qed.

Lemma lang_cat_inv r1 r2 s :
  lang (Cat r1 r2) s <-> exists s1 s2, s = s1 ++ s2 /\ lang r1 s1 /\ lang r2 s2.
Proof.
  split.
  - intros H. inversion H; subst. eauto.
  - intros (s1 & s2 & -> & H1 & H2). now constructor.
Qed.

Lemma lang_cls_inv p s : lang (Cls p) s <-> exists c, s = [c] /\ p c = true.
Proof.
  split.
  - intros H. inversion H; subst. eauto.
  - intros (c & -> & Hc). now constructor.
Qed.

Lemma lang_email s : lang EMAIL_REGEX s <-> email_shape s.
Proof.
  unfold EMAIL_REGEX, email_shape. split.
  - intros H.
    apply lang_cat_inv in H as (a & t1 & -> & Ha & H).
    apply lang_cat_inv in H as (x & t2 & -> & Hx & H).
    apply lang_cat_inv in H as (b & t3 & -> & Hb & H).
    apply lang_cat_inv in H as (y & c & -> & Hy & Hc).
    apply lang_cls_inv in Hx as (cx & -> & Hcx). apply N.eqb_eq in Hcx. subst cx.
    apply lang_cls_inv in Hy as (cy & -> & Hcy). apply N.eqb_eq in Hcy. subst cy.
    apply lang_plus_cls in Ha as [Ha1 Ha2].
    apply lang_plus_cls in Hb as [Hb1 Hb2].
    apply lang_plus_cls in Hc as [Hc1 Hc2].
    exists a, b, c. auto 10.
  - intros (a & b & c & -> & Ha & Hb & Hc & Fa & Fb & Fc).
    apply lang_cat_inv. exists a, (0x40 :: b ++ 0x2e :: c).
    split; [reflexivity |]. split; [now apply lang_plus_cls |].
    apply lang_cat_inv. exists [0x40], (b ++ 0x2e :: c).
    split; [reflexivity |]. split; [now constructor |].
    apply lang_cat_inv. exists b, (0x2e :: c).
    split; [reflexivity |]. split; [now apply lang_plus_cls |].
    apply lang_cat_inv. exists [0x2e], c.
    split; [reflexivity |]. split; [now constructor | now apply lang_plus_cls].
Qed.

Lemma email_match_iff s :
  whitespace_normalized s -> re_match EMAIL_REGEX s = true <-> email_shape s.
Proof.
  intros Hn. rewrite (re_match_normalized _ _ Hn), matches_lang. apply lang_email.
Qed.

(** X2. The email check passes exactly when the normalized address is made
    of three non-empty parts free of [@] and whitespace, joined by one [@]
    and one period; a form is rejected with the email reason exactly when
    the honeypot, name and department checks pass and the address has not
    that shape. *)
Theorem email_accepted_iff_shape (form : gmap string str) :
  let email_ := clean_text (form !! "email") in
  (re_match EMAIL_REGEX email_ = true <-> email_shape email_)
  /\ (validate_payload form = Rejected "Please enter a valid email address." <->
      violated form HoneypotRule = false
      /\ violated form NameRule = false
      /\ violated form DepartmentRule = false
      /\ ~ email_shape email_).
Proof.
  intros email_.
  assert (Hiff : re_match EMAIL_REGEX email_ = true <-> email_shape email_)
    by apply email_match_iff, clean_text_normalized.
  split; [exact Hiff |].
  change "Please enter a valid email address." with (reason_of EmailRule).
  rewrite rejected_iff, first_violated_some, <- Hiff.
  change (violated form EmailRule) with (negb (re_match EMAIL_REGEX email_)).
  split.
  - intros [Hv Hb].
    split; [apply Hb; simpl; lia |]. split; [apply Hb; simpl; lia |].
    split; [apply Hb; simpl; lia |].
    apply negb_true_iff in Hv. rewrite Hv. discriminate.
  - intros (H0 & H1 & H2 & Hn). split.
    + apply negb_true_iff. now destruct (re_match EMAIL_REGEX email_).
    + intros r' Hlt. destruct r'; simpl in Hlt; try lia; assumption.
Qed.

Lemma out_of_bounds_false lo hi s :
  out_of_bounds lo hi s = false <-> (lo <= length s <= hi)%nat.
Proof.
  unfold out_of_bounds. rewrite orb_false_iff, !Nat.ltb_ge. lia.
Qed.

(** X3. A record returned by [validate_payload] meets every field
    constraint: a name of the accepted shape, a listed department, an
    address of the accepted shape, a phone of 10 to 15 ASCII digits, and an
    interest, a short goal and a long goal within 3..300, 3..600 and 3..800
    code points. *)
Theorem accepted_record_constraints (form : gmap string str) (data : gmap string field) :
  validate_payload form = Accepted data ->
  exists name dept email_ phone interest sgoal lgoal,
    data = record_of name dept email_ phone interest sgoal lgoal
    /\ name_shape name
    /\ dept ∈ DEPARTMENTS
    /\ email_shape email_
    /\ (10 <= length phone <= 15)%nat /\ forallb is_ascii_digit phone = true
    /\ (3 <= length interest <= 300)%nat
    /\ (3 <= length sgoal <= 600)%nat
    /\ (3 <= length lgoal <= 800)%nat.
Proof.
  intros Hv. pose proof (accepted_no_violation _ _ Hv) as Hn.
  rewrite (accepted_normalized_record _ _ Hv). unfold normalized_record.
  eexists _, _, _, _, _, _, _. split; [reflexivity |].
  pose proof (Hn NameRule) as H1. pose proof (Hn DepartmentRule) as H2.
  pose proof (Hn EmailRule) as H3. pose proof (Hn PhoneRule) as H4.
  pose proof (Hn InterestRule) as H5. pose proof (Hn ShortGoalRule) as H6.
  pose proof (Hn LongGoalRule) as H7. cbn [violated] in *.
  apply negb_false_iff in H1, H2, H3, H4.
  apply name_match_iff in H1; [| apply clean_text_normalized].
  apply bool_decide_eq_true in H2.
  apply email_match_iff in H3; [| apply clean_text_normalized].
  apply phone_match_iff in H4 as [H4 H4']; [| apply sub_nondigits_decimal].
  apply out_of_bounds_false in H5, H6, H7.
  repeat split; auto; lia.
Qed.

Lemma accepted_record_constraints_witness :
  validate_payload sample_form = Accepted (normalized_record sample_form)
  /\ exists name dept email_ phone interest sgoal lgoal,
       normalized_record sample_form
       = record_of name dept email_ phone interest sgoal lgoal
       /\ name_shape name.
Proof.
  assert (H : validate_payload sample_form = Accepted (normalized_record sample_form))
    by by_evaluation.
  split; [exact H |].
  destruct (accepted_record_constraints _ _ H)
    as (n & d & e & p & i & sg & lg & E & Hn & _).
  exists n, d, e, p, i, sg, lg. auto.
Defined.

Lemma form_of_lookup (data : gmap string field) (k : string) :
  form_of data !! k =
  match data !! k with
  | Some (FStr s) => Some s
  | _ => None
  end.
Proof.
  unfold form_of. rewrite lookup_omap.
  destruct (data !! k) as [[|s]|]; reflexivity.
Qed.

Lemma sub_nondigits_idempotent s : sub_nondigits (sub_nondigits s) = sub_nondigits s.
Proof. apply sub_nondigits_id, sub_nondigits_decimal. Qed.

Lemma or_empty_some s : or_empty (Some s) = s.
Proof. reflexivity. Qed.

(** Validation reads eight fields only. *)
Lemma validate_payload_ext (f g : gmap string str) :
  (forall k, k ∈ "website" :: field_names -> f !! k = g !! k) ->
  validate_payload f = validate_payload g.
Proof.
  intros H. unfold validate_payload.
  rewrite !H by (unfold field_names; set_solver). reflexivity.
Qed.

(** X4. An accepted record validates to itself: posting back the fields of
    a record that [validate_payload] returned, as the form does after an
    edit, with any csrf token beside them, is accepted and gives the same
    record again. *)
Theorem revalidation_gives_same_record
    (form : gmap string str) (data : gmap string field) (token : str) :
  validate_payload form = Accepted data ->
  validate_payload (form_of data) = Accepted data
  /\ validate_payload (<["csrf_token" := token]> (form_of data)) = Accepted data.
Proof.
  intros Hv.
  assert (Hplain : validate_payload (form_of data) = Accepted data).
  { pose proof (accepted_no_violation _ _ Hv) as Hn.
    pose proof (accepted_normalized_record _ _ Hv) as Hd.
    assert (Hl : forall k s, data !! k = Some (FStr s) -> form_of data !! k = Some s).
    { intros k s Hk. now rewrite form_of_lookup, Hk. }
    assert (Hw : form_of data !! "website" = None).
    { rewrite form_of_lookup, Hd. reflexivity. }
    assert (L1 := Hl "name" (clean_text (form !! "name")) ltac:(now rewrite Hd)).
    assert (L2 := Hl "department" (clean_text (form !! "department")) ltac:(now rewrite Hd)).
    assert (L3 := Hl "email" (clean_text (form !! "email")) ltac:(now rewrite Hd)).
    assert (L4 := Hl "phone" (sub_nondigits (or_empty (form !! "phone")))
                    ltac:(now rewrite Hd)).
    assert (L5 := Hl "interest" (clean_text (form !! "interest")) ltac:(now rewrite Hd)).
    assert (L6 := Hl "short_goal" (clean_text (form !! "short_goal")) ltac:(now rewrite Hd)).
    assert (L7 := Hl "long_goal" (clean_text (form !! "long_goal")) ltac:(now rewrite Hd)).
    assert (Hsame : forall r, violated (form_of data) r = false).
    { intros r. rewrite <- (Hn r).
      destruct r; cbn [violated];
        rewrite ?Hw, ?L1, ?L2, ?L3, ?L4, ?L5, ?L6, ?L7, ?clean_text_idempotent,
          ?or_empty_some, ?sub_nondigits_idempotent; try reflexivity.
      symmetry. exact (Hn HoneypotRule). }
    rewrite validate_payload_rules.
    rewrite (proj2 (first_violated_none (form_of data)) Hsame).
    f_equal. rewrite Hd at 2. unfold normalized_record.
    rewrite L1, L2, L3, L4, L5, L6, L7, !clean_text_idempotent, or_empty_some.
    now rewrite sub_nondigits_idempotent. }
  split; [exact Hplain |]. rewrite <- Hplain.
  apply validate_payload_ext. intros k Hk. apply lookup_insert_ne.
  intros <-. unfold field_names in Hk.
  repeat (apply elem_of_cons in Hk as [Hk | Hk]; [discriminate Hk |]).
  now apply elem_of_nil in Hk.
Qed.

Lemma revalidation_gives_same_record_witness :
  validate_payload sample_form = Accepted (normalized_record sample_form)
  /\ validate_payload (<["csrf_token" := second_token]>
                         (form_of (normalized_record sample_form)))
     = Accepted (normalized_record sample_form).
Proof.
  assert (H : validate_payload sample_form = Accepted (normalized_record sample_form))
    by by_evaluation.
  split; [exact H |].
  exact (proj2 (revalidation_gives_same_record sample_form _ second_token H)).
Defined.

Lemma clean_text_of_empty o : or_empty o = [] -> clean_text o = [].
Proof. intros H. unfold clean_text. now rewrite H. Qed.

(** X5. A form in which one of the seven fields is missing or empty is
    never accepted. *)
Theorem missing_field_rejected (form : gmap string str) (k : string) :
  k ∈ field_names ->
  or_empty (form !! k) = [] ->
  exists reason, validate_payload form = Rejected reason.
Proof.
  intros Hk He. destruct (validate_payload form) as [reason|data] eqn:Hv; [eauto |].
  exfalso. pose proof (accepted_no_violation _ _ Hv) as Hn.
  unfold field_names in Hk.
  repeat (apply elem_of_cons in Hk as [-> | Hk]); [ | | | | | | | now apply elem_of_nil in Hk ].
  - specialize (Hn NameRule). cbn [violated] in Hn.
    rewrite (clean_text_of_empty _ He) in Hn. discriminate Hn.
  - specialize (Hn DepartmentRule). cbn [violated] in Hn.
    rewrite (clean_text_of_empty _ He) in Hn. discriminate Hn.
  - specialize (Hn EmailRule). cbn [violated] in Hn.
    rewrite (clean_text_of_empty _ He) in Hn. discriminate Hn.
  - specialize (Hn PhoneRule). cbn [violated] in Hn.
    rewrite He in Hn. discriminate Hn.
  - specialize (Hn InterestRule). cbn [violated] in Hn.
    rewrite (clean_text_of_empty _ He) in Hn. discriminate Hn.
  - specialize (Hn ShortGoalRule). cbn [violated] in Hn.
    rewrite (clean_text_of_empty _ He) in Hn. discriminate Hn.
  - specialize (Hn LongGoalRule). cbn [violated] in Hn.
    rewrite (clean_text_of_empty _ He) in Hn. discriminate Hn.
Qed.

Lemma missing_field_rejected_witness :
  "phone" ∈ field_names
  /\ or_empty (delete "phone" sample_form !! "phone") = []
  /\ exists reason, validate_payload (delete "phone" sample_form) = Rejected reason.
Proof.
  assert (H1 : "phone" ∈ field_names) by (unfold field_names; set_solver).
  assert (H2 : or_empty (delete "phone" sample_form !! "phone") = [])
    by by_evaluation.
  split; [exact H1 |]. split; [exact H2 |].
  exact (missing_field_rejected (delete "phone" sample_form) "phone" H1 H2).
Defined.

(** ** The validator against the rules of the specification *)

Lemma lstrip_spaces s : exists p, s = p ++ lstrip s /\ forallb isspace p = true.
Proof.
  induction s as [|c s (p & Hp & Hs)]; simpl.
  - now exists [].
  - destruct (isspace c) eqn:Hc.
    + exists (c :: p). simpl. rewrite Hc, Hs. split; [now rewrite <- Hp | reflexivity].
    + now exists [].
Qed.

Lemma rstrip_spaces s : exists q, s = rstrip s ++ q /\ forallb isspace q = true.
Proof.
  unfold rstrip. destruct (lstrip_spaces (rev s)) as (p & Hp & Hs).
  exists (rev p). split.
  - rewrite <- rev_app_distr, <- Hp. symmetry. apply rev_involutive.
  - apply forallb_forall. intros x Hx. apply in_rev in Hx.
    now apply (proj1 (forallb_forall _ _) Hs).
Qed.

Lemma words_from_lstrip s : words_from [] (lstrip s) = words_from [] s.
Proof.
  induction s as [|c s IH]; [reflexivity |].
  simpl. destruct (isspace c) eqn:Hc; [exact IH |].
  simpl. now rewrite Hc.
Qed.

Lemma words_from_spaces q :
  forallb isspace q = true ->
  forall cur, words_from cur q = match cur with [] => [] | _ => [rev cur] end.
Proof.
  induction q as [|c q IH]; intros Hq cur; [reflexivity |].
  simpl in Hq. apply andb_true_iff in Hq as [Hc Hq].
  simpl. rewrite Hc. rewrite (IH Hq []). reflexivity.
Qed.

Lemma words_from_trailing q :
  forallb isspace q = true ->
  forall t cur, words_from cur (t ++ q) = words_from cur t.
Proof.
  intros Hq. induction t as [|c t IH]; intros cur.
  - simpl. apply words_from_spaces, Hq.
  - simpl. destruct (isspace c); [| apply IH].
    destruct cur; now rewrite IH.
Qed.

Lemma words_strip s : words (strip s) = words s.
Proof.
  unfold words, strip.
  destruct (rstrip_spaces (lstrip s)) as (q & Hq & Hs).
  rewrite <- (words_from_lstrip s). rewrite Hq at 2.
  symmetry. apply words_from_trailing, Hs.
Qed.

Lemma words_from_cur_nonempty t : forall cur, cur <> [] -> words_from cur t <> [].
Proof.
  induction t as [|c t IH]; intros cur Hcur; simpl.
  - destruct cur; [contradiction | discriminate].
  - destruct (isspace c).
    + destruct cur; [contradiction | discriminate].
    + apply IH. discriminate.
Qed.

Lemma words_from_nonempty t :
  t <> [] -> starts_nonspace (rev t) = true -> words_from [] t <> [].
Proof.
  induction t as [|c t IH]; intros Hne He; [contradiction |].
  simpl. destruct (isspace c) eqn:Hc.
  - destruct t as [|c' t'].
    + simpl in He. rewrite Hc in He. discriminate.
    + apply IH; [discriminate |].
      rewrite <- (ends_nonspace_tail c); [exact He | discriminate].
  - apply words_from_cur_nonempty. discriminate.
Qed.

Lemma unwords_cons w rest :
  rest <> [] -> unwords (w :: rest) = w ++ 0x20 :: unwords rest.
Proof. destruct rest; [contradiction | reflexivity]. Qed.

Lemma ends_nonspace_step c t :
  starts_nonspace (rev (c :: t)) = true -> starts_nonspace (rev t) = true.
Proof.
  destruct t as [|c' t']; [reflexivity |].
  intros H. rewrite <- (ends_nonspace_tail c); [exact H | discriminate].
Qed.

Lemma unwords_words_from t :
  starts_nonspace (rev t) = true ->
  forall cur,
    unwords (words_from cur t)
    = rev cur ++ match cur with
                 | [] => sub_spaces true t
                 | _ => sub_spaces false t
                 end.
Proof.
  induction t as [|c t IH]; intros He cur.
  - destruct cur; simpl; [reflexivity | now rewrite app_nil_r].
  - pose proof (ends_nonspace_step c t He) as He'.
    simpl. destruct (isspace c) eqn:Hc.
    + assert (Hne : t <> []).
      { intros ->. simpl in He. rewrite Hc in He. discriminate. }
      destruct cur as [|x cur].
      * apply (IH He' []).
      * rewrite unwords_cons by now apply words_from_nonempty.
        now rewrite (IH He' []).
    + rewrite (IH He' (c :: cur)). simpl rev.
      rewrite <- app_assoc. destruct cur; reflexivity.
Qed.

Lemma sub_spaces_start t :
  starts_nonspace t = true -> sub_spaces true t = sub_spaces false t.
Proof.
  destruct t as [|c t]; [reflexivity |]. simpl.
  intros H. apply negb_true_iff in H. now rewrite H.
Qed.

(** [clean_text] is the normalization of the specification: the words of
    the text, joined by single spaces. *)
Lemma clean_text_words o : clean_text o = normalize_spaces (or_empty o).
Proof.
  unfold clean_text, normalize_spaces.
  rewrite <- (words_strip (or_empty o)). unfold words.
  rewrite (unwords_words_from _ (strip_ends (or_empty o)) []).
  simpl. apply eq_sym, sub_spaces_start, strip_starts.
Qed.

Lemma sub_nondigits_keep s : sub_nondigits s = keep_digits s.
Proof.
  unfold sub_nondigits. induction s as [|c s IH]; [reflexivity |].
  rewrite filter_cons. simpl. rewrite IH.
  destruct (isdecimal c); destruct (decide _); congruence.
Qed.

Lemma normalized_record_spec form : normalized_record form = spec_record form.
Proof.
  unfold normalized_record, spec_record.
  now rewrite !clean_text_words, sub_nondigits_keep.
Qed.

(** A rule is violated, as the code tests it, exactly when the form does not
    meet it, in the words of the specification. *)
Lemma violated_meets form r : violated form r = false <-> meets form r.
Proof.
  destruct r; cbn [violated meets];
    rewrite <- ?clean_text_words, <- ?sub_nondigits_keep, ?negb_false_iff.
  - destruct (form !! "website") as [[|c s]|]; simpl; split; congruence.
  - apply name_match_iff, clean_text_normalized.
  - apply bool_decide_eq_true.
  - apply email_match_iff, clean_text_normalized.
  - apply phone_match_iff, sub_nondigits_decimal.
  - apply out_of_bounds_false.
  - apply out_of_bounds_false.
  - apply out_of_bounds_false.
Qed.

Lemma violated_not_meets form r : violated form r = true <-> ~ meets form r.
Proof.
  rewrite <- violated_meets. destruct (violated form r); split; congruence.
Qed.

Lemma accepted_iff_meets form data :
  validate_payload form = Accepted data <->
  (forall r, meets form r) /\ data = spec_record form.
Proof.
  rewrite validate_payload_rules, <- normalized_record_spec.
  destruct (first_violated form) as [r|] eqn:Hf.
  - split; [discriminate |]. intros [Hm _].
    apply first_violated_some in Hf as [Hv _].
    apply violated_not_meets in Hv. destruct (Hv (Hm r)).
  - split.
    + intros [= <-]. split; [| reflexivity].
      intros r. apply violated_meets. now apply first_violated_none.
    + now intros [_ ->].
Qed.

Lemma rejected_iff_meets form r :
  validate_payload form = Rejected (reason_of r) <->
  ~ meets form r /\ forall r', (rank r' < rank r)%nat -> meets form r'.
Proof.
  rewrite rejected_iff, first_violated_some, violated_not_meets.
  split; intros [Hr Hb]; (split; [exact Hr |]); intros r' Hlt;
    apply violated_meets; auto.
Qed.

(** C5. For every raw form, [validate_payload] returns a record exactly when
    the form meets every rule, and the record is then the normalized one:
    each text field as its words joined by single spaces, the phone as its
    decimal digits; such a record is fully normalized.  It returns the reason
    of a rule exactly when that rule is the first one not met, in the order
    honeypot, name, department, email, phone, interest, short goal, long
    goal; there is no other result, so one reason at most, and it is a
    function of the form.  A form padded with whitespace is accepted with
    its normalized record; a form that breaks the name and the phone rule
    is rejected with the name reason. *)
Theorem validate_payload_first_rule (form : gmap string str) :
  (forall data, validate_payload form = Accepted data <->
      (forall r, meets form r) /\ data = spec_record form)
  /\ (forall r, validate_payload form = Rejected (reason_of r) <->
      ~ meets form r /\ forall r', (rank r' < rank r)%nat -> meets form r')
  /\ ((validate_payload form = Accepted (spec_record form)
       /\ fully_normalized (spec_record form))
      \/ exists r, validate_payload form = Rejected (reason_of r))
  /\ validate_payload spaced_form
     = Accepted (record_of (u "Ann O'Brien-Lee") (u "BSc CS") (u "ann@example.org")
                   (u "11234567890") (u "Compilers and proofs")
                   (u "Finish the course") (u "Teach"))
  /\ validate_payload (<["name" := u "A"]> (<["phone" := u "12345"]> sample_form))
     = Rejected "Please enter a valid full name.".
Proof.
  split; [intros data; apply accepted_iff_meets |].
  split; [intros r; apply rejected_iff_meets |].
  split; [| split; by_evaluation].
  rewrite validate_payload_rules, <- normalized_record_spec.
  destruct (first_violated form) as [r|] eqn:Hf.
  - right. now exists r.
  - left. split; [reflexivity |].
    apply normalized_record_ok. now apply first_violated_none.
Qed.


Lemma phone_only_rule raw r :
  r <> PhoneRule -> violated (<["phone" := raw]> sample_form) r = false.
Proof.
  intros Hr. destruct r; try contradiction; cbn [violated];
    rewrite lookup_insert_ne by done; by_evaluation.
Qed.

Lemma record_of_phone n d e p p' i s l :
  <["phone" := FStr p']> (record_of n d e p i s l) = record_of n d e p' i s l.
Proof.
  unfold record_of.
  rewrite (insert_insert_ne _ "phone" "name") by done.
  rewrite (insert_insert_ne _ "phone" "department") by done.
  rewrite (insert_insert_ne _ "phone" "email") by done.
  now rewrite insert_insert_eq.
Qed.

Lemma phone_only_record raw :
  spec_record (<["phone" := raw]> sample_form)
  = <["phone" := FStr (keep_digits raw)]> sample_record.
Proof.
  unfold spec_record, sample_record. rewrite record_of_phone.
  rewrite lookup_insert_eq, !lookup_insert_ne by done.
  change (or_empty (Some raw)) with raw.
  replace (normalize_spaces (or_empty (sample_form !! "name")))
    with (u "Ann O'Brien-Lee") by by_evaluation.
  replace (normalize_spaces (or_empty (sample_form !! "department")))
    with (u "BSc CS") by by_evaluation.
  replace (normalize_spaces (or_empty (sample_form !! "email")))
    with (u "ann@example.org") by by_evaluation.
  replace (normalize_spaces (or_empty (sample_form !! "interest")))
    with (u "Compilers") by by_evaluation.
  replace (normalize_spaces (or_empty (sample_form !! "short_goal")))
    with (u "Finish the course") by by_evaluation.
  replace (normalize_spaces (or_empty (sample_form !! "long_goal")))
    with (u "Teach") by by_evaluation.
  reflexivity.
Qed.

(** C7, as the code has it.  Stripping keeps exactly the Unicode decimal
    digits of the text, in their order, ASCII or not, and removes every other
    code point; it is idempotent, and leaves a text unchanged exactly when the
    text is made of decimal digits only.  After stripping, the phone is
    accepted exactly when what remains is 10 to 15 code points that are all
    ASCII digits [0-9]: a form that is otherwise valid is accepted with the
    stripped phone under that condition and rejected with the phone reason
    otherwise.  "(123) 456-7890" becomes "1234567890" and is accepted;
    "12345" is rejected. *)
Theorem phone_accepted_iff_ascii_digits (raw : str) :
  let kept := keep_digits raw in
  let ok := (10 <= length kept <= 15)%nat /\ forallb is_ascii_digit kept = true in
  sub_nondigits raw = kept
  /\ sub_nondigits (sub_nondigits raw) = sub_nondigits raw
  /\ (sub_nondigits raw = raw <-> forallb isdecimal raw = true)
  /\ (re_match PHONE_REGEX (sub_nondigits raw) = true <-> ok)
  /\ (validate_payload (<["phone" := raw]> sample_form)
      = Accepted (<["phone" := FStr kept]> sample_record) <-> ok)
  /\ (validate_payload (<["phone" := raw]> sample_form)
      = Rejected "Phone must be 10-15 digits." <-> ~ ok)
  /\ sub_nondigits (u "+1 (123) 456-7890 ext. " ++ [0x661; 0x20; 0x0a; 0x37])
     = u "11234567890" ++ [0x661; 0x37]
  /\ sub_nondigits (u "(123) 456-7890") = u "1234567890"
  /\ validate_payload (<["phone" := u "(123) 456-7890"]> sample_form)
     = Accepted sample_record
  /\ validate_payload (<["phone" := u "12345"]> sample_form)
     = Rejected "Phone must be 10-15 digits.".
Proof.
  intros kept ok. subst kept.
  assert (Hphone : meets (<["phone" := raw]> sample_form) PhoneRule <-> ok).
  { cbn [meets]. rewrite lookup_insert_eq. reflexivity. }
  split; [apply sub_nondigits_keep |].
  split; [apply sub_nondigits_id, sub_nondigits_decimal |].
  split.
  { split; [intros <-; apply sub_nondigits_decimal | apply sub_nondigits_id]. }
  split.
  { unfold ok. rewrite <- sub_nondigits_keep.
    apply phone_match_iff, sub_nondigits_decimal. }
  split.
  { rewrite accepted_iff_meets, <- phone_only_record, <- Hphone. split.
    - intros [Hm _]. apply Hm.
    - intros Hm. split; [| reflexivity]. intros r.
      destruct r; try exact Hm;
        apply violated_meets, phone_only_rule; discriminate. }
  split.
  { change "Phone must be 10-15 digits." with (reason_of PhoneRule).
    rewrite rejected_iff_meets, <- Hphone. split.
    - now intros [Hn _].
    - intros Hn. split; [exact Hn |]. intros r' Hlt.
      apply violated_meets, phone_only_rule. intros ->. simpl in Hlt. lia. }
  repeat split; by_evaluation.
Qed.

Lemma name_only_rule raw r :
  r <> NameRule -> violated (<["name" := raw]> sample_form) r = false.
Proof.
  intros Hr. destruct r; try contradiction; cbn [violated];
    rewrite lookup_insert_ne by done; by_evaluation.
Qed.

(** C8. The name check passes exactly when the name, with its words joined
    by single spaces, is an ASCII letter followed by 1 to 49 code points
    among letters, space, period, apostrophe and hyphen (2 to 50 in all); a
    form is rejected with the name reason exactly when its honeypot is empty
    and its name has not that shape, and a form that is otherwise valid is
    accepted exactly when its name has it.  "A" and "123John" are rejected,
    "Ann O'Brien-Lee" is accepted, also when it comes padded with
    whitespace, and then stored without the padding. *)
Theorem name_accepted_iff_shape (form : gmap string str) :
  let name := normalize_spaces (or_empty (form !! "name")) in
  clean_text (form !! "name") = name
  /\ (re_match NAME_REGEX (clean_text (form !! "name")) = true <->
      name_shape name /\ (2 <= length name <= 50)%nat)
  /\ (validate_payload form = Rejected "Please enter a valid full name." <->
      or_empty (form !! "website") = [] /\ ~ name_shape name)
  /\ (forall raw,
        (exists data, validate_payload (<["name" := raw]> sample_form) = Accepted data)
        <-> name_shape (normalize_spaces raw))
  /\ validate_payload (<["name" := u "A"]> sample_form)
     = Rejected "Please enter a valid full name."
  /\ validate_payload (<["name" := u "123John"]> sample_form)
     = Rejected "Please enter a valid full name."
  /\ validate_payload (<["name" := u "Ann O'Brien-Lee"]> sample_form)
     = Accepted sample_record
  /\ validate_payload
       (<["name" := [0x20; 0x09] ++ u "Ann" ++ [0x20; 0xa0; 0x0a] ++ u "O'Brien-Lee"
                    ++ [0x20; 0x0a]]> sample_form)
     = Accepted sample_record.
Proof.
  intros name.
  assert (Hiff : re_match NAME_REGEX (clean_text (form !! "name")) = true
                 <-> name_shape name).
  { unfold name. rewrite <- clean_text_words.
    apply name_match_iff, clean_text_normalized. }
  split; [apply clean_text_words |].
  split.
  { rewrite Hiff. split; [| tauto]. intros Hs. split; [exact Hs |].
    destruct Hs as (c & rest & -> & _ & Hl & _). simpl. lia. }
  split.
  { change "Please enter a valid full name." with (reason_of NameRule).
    rewrite rejected_iff_meets. split.
    - intros [Hn Hb]. split; [apply (Hb HoneypotRule); simpl; lia | exact Hn].
    - intros [Hw Hn]. split; [exact Hn |].
      intros r' Hlt. destruct r'; simpl in Hlt; try lia. exact Hw. }
  split.
  { intros raw.
    assert (Hname : meets (<["name" := raw]> sample_form) NameRule
                    <-> name_shape (normalize_spaces raw)).
    { cbn [meets]. rewrite lookup_insert_eq. reflexivity. }
    rewrite <- Hname. split.
    - intros [data Hd]. apply accepted_iff_meets in Hd as [Hm _]. apply Hm.
    - intros Hm. exists (spec_record (<["name" := raw]> sample_form)).
      apply accepted_iff_meets. split; [| reflexivity]. intros r.
      destruct r; try exact Hm;
        apply violated_meets, name_only_rule; discriminate. }
  repeat split; by_evaluation.
Qed.

(** * Further properties of the csrf helpers and of the form page *)

Lemma hex_byte_roundtrip (b : Byte.byte) :
  let n := Byte.to_N b in
  unhex_digit (hex_digit (n / 16)) = Some (n / 16)
  /\ unhex_digit (hex_digit (n mod 16)) = Some (n mod 16)
  /\ Byte.of_N (16 * (n / 16) + n mod 16) = Some b.
Proof. destruct b; repeat split; reflexivity. Qed.

Lemma unhex_hex bs : unhex (hex bs) = Some bs.
Proof.
  induction bs as [|b bs IH]; [reflexivity |].
  destruct (hex_byte_roundtrip b) as (H1 & H2 & H3).
  change (hex (b :: bs))
    with (hex_digit (Byte.to_N b / 16) :: hex_digit (Byte.to_N b mod 16) :: hex bs).
  cbn [unhex]. rewrite H1, H2, IH, H3. reflexivity.
Qed.

Lemma hex_length bs : length (hex bs) = (2 * length bs)%nat.
Proof. induction bs as [|b bs IH]; [reflexivity |]. cbn [hex flat_map app length] in *.
  unfold hex in IH. rewrite IH. lia.
Qed.

Lemma hex_nil bs : hex bs = [] -> bs = [].
Proof.
  intros H. pose proof (hex_length bs) as Hl. rewrite H in Hl.
  destruct bs; [reflexivity | simpl in Hl; lia].
Qed.

(** X6. [bytes.hex()] loses nothing: a token reads back to the bytes it was
    made from, so different random bytes give different tokens; it has two
    characters per byte and is empty only for no bytes at all. *)
Theorem hex_token_faithful (bs bs' : list Byte.byte) :
  unhex (hex bs) = Some bs
  /\ length (hex bs) = (2 * length bs)%nat
  /\ (hex bs = hex bs' <-> bs = bs')
  /\ (hex bs = [] <-> bs = []).
Proof.
  split; [apply unhex_hex |]. split; [apply hex_length |]. split.
  - split; [| now intros ->]. intros H.
    pose proof (unhex_hex bs) as H1. rewrite H, unhex_hex in H1. now injection H1.
  - split; [apply hex_nil | now intros ->].
Qed.

(** X7. [new_csrf_token] returns the hex of the random bytes, stores it under
    [csrf_token] and touches no other session key, nor the log, the mailbox
    or the output.  With at least one random byte the token it returned
    passes [validate_csrf] right away; any other token is refused. *)
Theorem minted_token_validates (ev : env) (w : world) :
  urandom ev <> [] ->
  let out := new_csrf_token ev w in
  out.1 = Ok (hex (urandom ev))
  /\ validate_csrf (Some (hex (urandom ev))) (session out.2) = true
  /\ (forall t, validate_csrf (Some t) (session out.2) = true -> t = hex (urandom ev))
  /\ (forall k, k <> "csrf_token" -> session out.2 !! k = session w !! k)
  /\ csv_file out.2 = csv_file w /\ outbox out.2 = outbox w /\ stdout out.2 = stdout w.
Proof.
  intros Hne. cbv zeta.
  assert (Hs : session (new_csrf_token ev w).2 !! "csrf_token"
               = Some (SStr (hex (urandom ev)))).
  { unfold new_csrf_token, bind, modify_session, ret. simpl. apply lookup_insert_eq. }
  split; [reflexivity |]. split.
  { apply validate_csrf_iff. exists (hex (urandom ev)).
    split; [reflexivity |]. split; [| exact Hs].
    intros H. now apply hex_nil in H. }
  split.
  { intros t Ht. apply validate_csrf_iff in Ht as (t' & [= <-] & _ & Ht). congruence. }
  split; [| now repeat split].
  intros k Hk. unfold new_csrf_token, bind, modify_session, ret. simpl.
  now apply lookup_insert_ne.
Qed.

Lemma minted_token_validates_witness :
  urandom (sample_env Byte.x3a) <> []
  /\ validate_csrf (Some first_token)
       (session (new_csrf_token (sample_env Byte.x3a) empty_world).2) = true.
Proof.
  assert (H : urandom (sample_env Byte.x3a) <> []) by discriminate.
  split; [exact H |].
  exact (proj1 (proj2 (minted_token_validates (sample_env Byte.x3a) empty_world H))).
Defined.


(** X8. [GET /] only reads the pending data: it stores a new token, hands
    the stored dictionary and the token to the form template, and ends in
    the exception of the template lookup.  The flashed messages, the stored
    dictionary, the log, the mailbox and the output are as they were: the
    messages are never taken out of the session.  Served under debug, the
    session is left as it was. *)
Theorem index_reads_pending_data (cfg : config) (ev : env) (w : world) :
  let out := index ev w in
  out.1 = Raise (TemplateNotFound "BASE_HEAD")
  /\ render_calls out.2 = render_calls w ++ [(FORM_TPL (pending w), hex (urandom ev))]
  /\ session out.2 = <["csrf_token" := SStr (hex (urandom ev))]> (session w)
  /\ flashes (session out.2) = flashes (session w)
  /\ session out.2 !! "form_data" = session w !! "form_data"
  /\ csv_file out.2 = csv_file w /\ outbox out.2 = outbox w /\ stdout out.2 = stdout w
  /\ session (serve true cfg ev GET_index w).2 = session w.
Proof.
  cbv zeta. unfold serve. cbn [handle]. rewrite index_eq. cbn [fst snd].
  do 3 (split; [reflexivity |]).
  split.
  { unfold flashes. simpl. now rewrite lookup_insert_ne by done. }
  split.
  { simpl. now rewrite lookup_insert_ne by done. }
  repeat split.
Qed.

(** * Further properties of the sinks *)

(** X9. [send_email] accounts for what it did.  When it returns [True], the
    SMTP dialogue raised nothing, one message, from the configured user to
    the owner, was handed to the server, and nothing was printed.  When it
    returns [False] one line was printed, and no message left unless the
    dialogue raised after the server had accepted it.  When it raises,
    nothing changed.  It never touches the session or the log. *)
Theorem send_email_accounting (cfg : config) (ev : env)
    (data : gmap string field) (w : world) :
  let out := send_email cfg ev data w in
  session out.2 = session w
  /\ csv_file out.2 = csv_file w
  /\ match out.1 with
     | Ok true =>
         smtp_fault ev = None
         /\ stdout out.2 = stdout w
         /\ exists m, outbox out.2 = outbox w ++ [m]
                      /\ sender m = or_empty (MAIL_USER cfg)
                      /\ recipient m = OWNER_EMAIL cfg
     | Ok false =>
         (exists line, stdout out.2 = stdout w ++ [line])
         /\ (outbox out.2 = outbox w
             \/ smtp_accepted ev = true /\ smtp_fault ev <> None
                /\ exists m, outbox out.2 = outbox w ++ [m]
                             /\ sender m = or_empty (MAIL_USER cfg)
                             /\ recipient m = OWNER_EMAIL cfg)
     | Raise _ => out.2 = w
     end.
Proof.
  cbv zeta. unfold send_email.
  destruct (negb (truthy _ && _)).
  { simpl. repeat split; eauto. }
  send_email_cases; try (simpl; repeat split; reflexivity).
  destruct (smtp_fault ev) as [e|] eqn:Hf; [destruct (smtp_accepted ev) eqn:Ha |];
    simpl.
  - split; [reflexivity |]. split; [reflexivity |]. split; [eauto |].
    right. split; [reflexivity |]. split; [discriminate |].
    eexists. split; [reflexivity |]. split; reflexivity.
  - split; [reflexivity |]. split; [reflexivity |]. split; [eauto |]. now left.
  - split; [reflexivity |]. split; [reflexivity |]. split; [reflexivity |].
    split; [reflexivity |]. eexists. split; [reflexivity |]. split; reflexivity.
Qed.

(** X10. [send_email] raises only with both credentials set, and only the
    [KeyError] of a field missing from the record or the exception with
    which the email library refused the subject, the sender or the
    recipient; an exception of the SMTP dialogue never comes out this way.
    The library refuses every value of more than one line, so a record whose
    name has two lines makes it raise. *)
Theorem send_email_raises_only (cfg : config) (ev : env)
    (data : gmap string field) (w : world) (e : exn) :
  (send_email cfg ev data w).1 = Raise e ->
  truthy (MAIL_USER cfg) && truthy (MAIL_PASS cfg) = true
  /\ ((exists k, k ∈ field_names /\ data !! k = None /\ e = KeyError k)
      \/ (exists name department,
            data !! "name" = Some name /\ data !! "department" = Some department
            /\ (header_fault ev "Subject" (subject_of name department) = Some e
                \/ header_fault ev "From" (or_empty (MAIL_USER cfg)) = Some e
                \/ header_fault ev "To" (OWNER_EMAIL cfg) = Some e))).
Proof.
  unfold send_email.
  destruct (truthy (MAIL_USER cfg) && truthy (MAIL_PASS cfg)); cbn [negb];
    [| discriminate].
  intros H. split; [reflexivity |]. revert H.
  unfold bind, getitem, set_header, try_except, smtp_send, ret, raise.
  assert (Hin : forall k, In k field_names -> k ∈ field_names)
    by (intros k; apply list_elem_of_In).
  destruct (data !! "name") as [n|] eqn:E1; cbn [fst].
  2:{ intros [= <-]. left. exists "name". split; [apply Hin; simpl; tauto | auto]. }
  destruct (data !! "department") as [d|] eqn:E2; cbn [fst].
  2:{ intros [= <-]. left. exists "department". split; [apply Hin; simpl; tauto | auto]. }
  destruct (header_fault ev "Subject" (subject_of n d)) as [e1|] eqn:S1; cbn [fst].
  { intros [= <-]. right. exists n, d. auto. }
  destruct (header_fault ev "From" (or_empty (MAIL_USER cfg))) as [e2|] eqn:S2; cbn [fst].
  { intros [= <-]. right. exists n, d. auto. }
  destruct (header_fault ev "To" (OWNER_EMAIL cfg)) as [e3|] eqn:S3; cbn [fst].
  { intros [= <-]. right. exists n, d. auto. }
  destruct (data !! "email") eqn:E3; cbn [fst].
  2:{ intros [= <-]. left. exists "email". split; [apply Hin; simpl; tauto | auto]. }
  destruct (data !! "phone") eqn:E4; cbn [fst].
  2:{ intros [= <-]. left. exists "phone". split; [apply Hin; simpl; tauto | auto]. }
  destruct (data !! "interest") eqn:E5; cbn [fst].
  2:{ intros [= <-]. left. exists "interest". split; [apply Hin; simpl; tauto | auto]. }
  destruct (data !! "short_goal") eqn:E6; cbn [fst].
  2:{ intros [= <-]. left. exists "short_goal". split; [apply Hin; simpl; tauto | auto]. }
  destruct (data !! "long_goal") eqn:E7; cbn [fst].
  2:{ intros [= <-]. left. exists "long_goal". split; [apply Hin; simpl; tauto | auto]. }
  destruct (smtp_fault ev); discriminate.
Qed.

Lemma send_email_raises_only_witness :
  (send_email sample_cfg smtp_down_env ∅ empty_world).1 = Raise (KeyError "name")
  /\ truthy (MAIL_USER sample_cfg) && truthy (MAIL_PASS sample_cfg) = true.
Proof.
  assert (H : (send_email sample_cfg smtp_down_env ∅ empty_world).1
              = Raise (KeyError "name")) by by_evaluation.
  split; [exact H |].
  exact (proj1 (send_email_raises_only sample_cfg smtp_down_env ∅ empty_world _ H)).
Defined.

(** * Further properties of the workflow *)

(** What the confirm steps do to the log and the mailbox. *)
Lemma confirm_steps_effects cfg ev data w :
  let out := confirm_steps cfg ev data w in
  csv_file out.2 = csv_file (save_to_csv ev data w).2
  /\ (outbox out.2 = outbox w \/ exists m, outbox out.2 = outbox w ++ [m]).
Proof.
  cbv zeta. rewrite confirm_steps_eq.
  pose proof (save_to_csv_frame ev data w) as [_ Hbox].
  destruct (save_to_csv ev data w) as [[[]|e] w1]; simpl in Hbox |- *; [| auto].
  pose proof (send_email_frame cfg ev data w1) as [_ Hcsv].
  pose proof (send_email_outbox cfg ev data w1) as Hout. rewrite Hbox in Hout.
  destruct (send_email cfg ev data w1) as [[b|e] w2]; simpl in *; auto.
Qed.

(** Every request leaves the log and the mailbox alone, or is a confirm. *)
Lemma handle_effects cfg ev req w :
  let out := handle cfg ev req w in
  (csv_file out.2 = csv_file w /\ outbox out.2 = outbox w)
  \/ (exists form data,
        req = POST_submit form
        /\ validate_csrf (form !! "csrf_token") (session w) = true
        /\ form !! "action" <> Some (u "edit")
        /\ session w !! "form_data" = Some (SDict data)
        /\ data <> ∅
        /\ csv_file out.2 = csv_file (save_to_csv ev data w).2
        /\ (outbox out.2 = outbox w \/ exists m, outbox out.2 = outbox w ++ [m])).
Proof.
  cbv zeta. destruct req as [|form|form]; cbn [handle].
  - rewrite index_eq. now left.
  - rewrite preview_cases. left.
    destruct (validate_csrf _ _); cbn [negb]; [| now split].
    destruct (validate_payload form); now split.
  - rewrite submit_cases.
    destruct (validate_csrf _ _) eqn:Hc; cbn [negb]; [| now left].
    destruct (bool_decide (form !! "action" = Some (u "edit"))) eqn:Ha; [now left |].
    apply bool_decide_eq_false in Ha.
    destruct (session w !! "form_data") as [[s|data|l]|] eqn:Hd; try (now left).
    destruct (bool_decide (data = ∅)) eqn:He; [now left |].
    apply bool_decide_eq_false in He.
    pose proof (confirm_steps_effects cfg ev data w) as H. cbv zeta in H.
    right. exists form, data. destruct H as [H1 H2]. auto 10.
Qed.

(** X11. Only a confirm writes: if a request changed the log or the mailbox,
    it was a [POST /submit] with a valid token, an action other than edit
    and a non-empty dictionary under [form_data].  [GET /], [POST /preview]
    and every redirect write nothing. *)
Theorem only_confirm_writes (cfg : config) (ev : env) (req : request) (w : world) :
  csv_file (handle cfg ev req w).2 <> csv_file w
  \/ outbox (handle cfg ev req w).2 <> outbox w ->
  exists form data,
    req = POST_submit form
    /\ validate_csrf (form !! "csrf_token") (session w) = true
    /\ form !! "action" <> Some (u "edit")
    /\ session w !! "form_data" = Some (SDict data)
    /\ data <> ∅.
Proof.
  intros Hch. destruct (handle_effects cfg ev req w) as [[H1 H2] | H].
  - destruct Hch; contradiction.
  - destruct H as (form & data & ? & ? & ? & ? & ? & _). eauto 10.
Qed.

Lemma only_confirm_writes_witness :
  (csv_file (handle sample_cfg (sample_env Byte.x7c)
               (POST_submit (confirm_form second_token)) after_preview).2
   <> csv_file after_preview
   \/ outbox (handle sample_cfg (sample_env Byte.x7c)
                (POST_submit (confirm_form second_token)) after_preview).2
      <> outbox after_preview)
  /\ exists form data,
       POST_submit (confirm_form second_token) = POST_submit form
       /\ validate_csrf (form !! "csrf_token") (session after_preview) = true
       /\ form !! "action" <> Some (u "edit")
       /\ session after_preview !! "form_data" = Some (SDict data)
       /\ data <> ∅.
Proof.
  assert (H : csv_file (handle sample_cfg (sample_env Byte.x7c)
                          (POST_submit (confirm_form second_token)) after_preview).2
              <> csv_file after_preview
              \/ outbox (handle sample_cfg (sample_env Byte.x7c)
                           (POST_submit (confirm_form second_token)) after_preview).2
                 <> outbox after_preview).
  { left. vm_compute. discriminate. }
  split; [exact H |].
  exact (only_confirm_writes sample_cfg (sample_env Byte.x7c) _ after_preview H).
Defined.

(** An append that the file system lets through, in one equation. *)
Lemma save_to_csv_cases ev data w :
  fs_fault ev = None ->
  save_to_csv ev data w =
  if bool_decide (dom (data ∪ {["timestamp" := FStr (now_iso ev)]})
                  ⊆ list_to_set fieldnames)
  then (Ok tt, appended ev data w)
  else (Raise (ValueError "dict contains fields not in fieldnames"),
        set_csv_file (Some (match csv_file w with
                            | None => [Header]
                            | Some lines => lines
                            end)) w).
Proof.
  intros H. unfold save_to_csv, appended. rewrite H.
  destruct (csv_file w) as [lines|]; reflexivity.
Qed.

(** One append and the log. *)
Lemma save_to_csv_log ev data w :
  log_well_formed w ->
  log_well_formed (save_to_csv ev data w).2
  /\ exists added,
       log_lines (save_to_csv ev data w).2 = log_lines w ++ added
       /\ (length (filter (fun l => is_row l = true) added) <= 1)%nat.
Proof.
  intros Hwf. destruct (fs_fault ev) as [e|] eqn:Hfs.
  { rewrite (save_to_csv_fault ev data w e Hfs).
    split; [exact Hwf |]. exists []. rewrite app_nil_r. split; [reflexivity | simpl; lia]. }
  rewrite (save_to_csv_cases ev data w Hfs).
  unfold log_well_formed, log_lines, appended in *.
  destruct (bool_decide (dom _ ⊆ _)); cbn [snd csv_file set_csv_file];
    destruct (csv_file w) as [lines|]; cbn [default].
  - destruct Hwf as (rows & -> & Hrows). split.
    + eexists. split; [reflexivity |]. rewrite forallb_app, Hrows. reflexivity.
    + eexists. split; [reflexivity |]. simpl. lia.
  - split.
    + eexists. split; [reflexivity | reflexivity].
    + eexists. split; [reflexivity |]. simpl. lia.
  - split; [exact Hwf |]. exists []. rewrite app_nil_r. split; [reflexivity | simpl; lia].
  - split.
    + exists []. split; reflexivity.
    + eexists. split; [reflexivity |]. simpl. lia.
Qed.

(** One request and the log. *)
Lemma handle_log_step cfg ev req w :
  log_well_formed w ->
  log_well_formed (handle cfg ev req w).2
  /\ exists added,
       log_lines (handle cfg ev req w).2 = log_lines w ++ added
       /\ (length (filter (fun l => is_row l = true) added) <= 1)%nat.
Proof.
  intros Hwf. destruct (handle_effects cfg ev req w) as [[H1 _] | H].
  - unfold log_well_formed, log_lines in *. rewrite H1. split; [exact Hwf |].
    exists []. rewrite app_nil_r. split; [reflexivity | simpl; lia].
  - destruct H as (form & data & _ & _ & _ & _ & _ & Hcsv & _).
    destruct (save_to_csv_log ev data w Hwf) as (Hwf1 & added & Hl & Hn).
    unfold log_well_formed, log_lines in *. rewrite Hcsv. eauto.
Qed.

(** X12. The log is append-only.  Over any sequence of requests in which no
    append fails in the file system (what such a failure leaves in the file
    is not part of the model), the lines already in the log stay as they
    are, at most one row is added per request, and a log that is absent or
    starts with its header followed by rows is still of that form at the
    end: the header is written once, when the file is created. *)
Theorem log_append_only (cfg : config) (reqs : list (env * request)) (w : world) :
  Forall (fun p => fs_fault p.1 = None) reqs ->
  log_well_formed w ->
  log_well_formed (run cfg reqs w)
  /\ exists added,
       log_lines (run cfg reqs w) = log_lines w ++ added
       /\ (length (filter (fun l => is_row l = true) added) <= length reqs)%nat.
Proof.
  intros Hfs. revert w.
  induction Hfs as [|[ev req] reqs _ _ IH]; intros w Hwf; cbn [run].
  - split; [exact Hwf |]. exists []. rewrite app_nil_r. split; [reflexivity | simpl; lia].
  - destruct (handle_log_step cfg ev req w Hwf) as (Hwf1 & a1 & E1 & L1).
    destruct (IH _ Hwf1) as (Hwf2 & a2 & E2 & L2).
    split; [exact Hwf2 |]. exists (a1 ++ a2).
    rewrite E2, E1, <- app_assoc. split; [reflexivity |].
    rewrite filter_app, length_app. simpl. lia.
Qed.

Lemma log_append_only_witness :
  Forall (fun p : env * request => fs_fault p.1 = None)
    [(sample_env Byte.x3a, GET_index);
     (sample_env Byte.x5b, POST_preview good_form);
     (sample_env Byte.x7c, POST_submit (confirm_form second_token))]
  /\ log_well_formed empty_world
  /\ log_well_formed
       (run sample_cfg
          [(sample_env Byte.x3a, GET_index);
           (sample_env Byte.x5b, POST_preview good_form);
           (sample_env Byte.x7c, POST_submit (confirm_form second_token))]
          empty_world).
Proof.
  assert (H0 : Forall (fun p : env * request => fs_fault p.1 = None)
                 [(sample_env Byte.x3a, GET_index);
                  (sample_env Byte.x5b, POST_preview good_form);
                  (sample_env Byte.x7c, POST_submit (confirm_form second_token))])
    by (repeat constructor).
  assert (H : log_well_formed empty_world) by exact I.
  split; [exact H0 |]. split; [exact H |].
  exact (proj1 (log_append_only sample_cfg _ empty_world H0 H)).
Defined.

(** ** What the session holds under [form_data] *)

Lemma handle_stored_by_preview cfg ev req w :
  stored_by_preview (session w) -> stored_by_preview (session (handle cfg ev req w).2).
Proof.
  intros Hok. destruct req as [|form|form]; cbn [handle].
  - rewrite index_eq. unfold stored_by_preview in *. simpl.
    now rewrite lookup_insert_ne by done.
  - rewrite preview_cases. destruct (validate_csrf _ _); cbn [negb].
    + destruct (validate_payload form) as [reason|data] eqn:Hv;
        unfold stored_by_preview; simpl.
      * rewrite lookup_insert_eq. exists form. left. eauto.
      * rewrite lookup_insert_ne, lookup_insert_eq by done. exists form. now right.
    + unfold stored_by_preview in *. simpl. now rewrite lookup_insert_ne by done.
  - rewrite submit_cases. destruct (validate_csrf _ _); cbn [negb].
    2:{ unfold stored_by_preview in *. simpl. now rewrite lookup_insert_ne by done. }
    destruct (bool_decide (form !! "action" = Some (u "edit"))); [exact Hok |].
    unfold stored_by_preview in Hok |- *.
    destruct (session w !! "form_data") as [[s|data|l]|] eqn:Hd; try contradiction.
    + destruct (bool_decide (data = ∅)).
      * simpl. now rewrite lookup_insert_ne, Hd by done.
      * destruct (confirm_cases cfg ev data w) as [_ Hs]. rewrite Hs.
        destruct (sinks_return cfg ev data w).
        -- now rewrite lookup_insert_ne, lookup_delete_eq by done.
        -- now rewrite Hd.
    + simpl. now rewrite lookup_insert_ne, Hd by done.
Qed.

Lemma reachable_stored_by_preview cfg w :
  reachable cfg w -> stored_by_preview (session w).
Proof.
  induction 1 as [w Hf | w ev req _ IH].
  - unfold stored_by_preview. rewrite Hf. now rewrite lookup_empty.
  - now apply handle_stored_by_preview.
Qed.

Lemma stored_has_fields d form :
  d = raw_echo form \/ validate_payload form = Accepted d -> has_fields d.
Proof.
  intros [-> | Hv]; [apply has_fields_raw_echo |].
  rewrite (accepted_normalized_record _ _ Hv). apply has_fields_normalized_record.
Qed.

Lemma stored_dom d form :
  d = raw_echo form \/ validate_payload form = Accepted d ->
  dom d = list_to_set field_names.
Proof.
  intros [-> | Hv]; [apply dom_raw_echo |].
  rewrite (accepted_normalized_record _ _ Hv). apply dom_normalized_record.
Qed.

(** X13. In every session that requests can reach, what is stored under
    [form_data] is a dictionary that [preview] built: the raw echo of a
    rejected form or the record of an accepted one.  Hence a request raises
    only the exception of the template lookup, the exception of the failed
    append, or the exception with which the email library refused a header
    of the message; [submit] never meets a missing field, a key that the log
    has no column for, or a value that is not a dictionary. *)
Theorem reachable_session_holds_preview_data
    (cfg : config) (ev : env) (req : request) (w : world) (e : exn) :
  reachable cfg w ->
  stored_by_preview (session w)
  /\ ((handle cfg ev req w).1 = Raise e ->
      e = TemplateNotFound "BASE_HEAD"
      \/ fs_fault ev = Some e
      \/ exists name department,
           pending w !! "name" = Some name
           /\ pending w !! "department" = Some department
           /\ (header_fault ev "Subject" (subject_of name department) = Some e
               \/ header_fault ev "From" (or_empty (MAIL_USER cfg)) = Some e
               \/ header_fault ev "To" (OWNER_EMAIL cfg) = Some e)).
Proof.
  intros Hr. pose proof (reachable_stored_by_preview cfg w Hr) as Hst.
  split; [exact Hst |].
  destruct req as [|form|form]; cbn [handle].
  - rewrite index_eq. intros [= <-]. now left.
  - rewrite preview_cases. unfold invalid_session.
    destruct (negb _); [discriminate |].
    destruct (validate_payload form); [discriminate |]. intros [= <-]. now left.
  - rewrite submit_cases. unfold invalid_session.
    destruct (negb _); [discriminate |].
    destruct (bool_decide (form !! "action" = Some (u "edit"))); [discriminate |].
    unfold stored_by_preview in Hst. unfold pending.
    destruct (session w !! "form_data") as [[s|data|l]|]; try contradiction;
      [| discriminate].
    destruct (bool_decide (data = ∅)); [discriminate |].
    assert (Hf : has_fields data).
    { destruct Hst as (f & [[-> _] | Hv]); eapply stored_has_fields; eauto. }
    assert (Hfit : fits_header data).
    { unfold fits_header.
      destruct Hst as (f & [[-> _] | Hv]);
        [rewrite dom_raw_echo | erewrite stored_dom by eauto]; apply field_names_fit. }
    rewrite confirm_steps_eq.
    destruct (fs_fault ev) as [e0|] eqn:Hfs.
    { rewrite (save_to_csv_fault ev data w e0 Hfs). intros [= <-]. auto. }
    rewrite (save_to_csv_ok ev data w Hfs Hfit).
    destruct (send_email cfg ev data (appended ev data w)) as [[b|e1] w2] eqn:Hse.
    { intros [= <-]. now left. }
    intros [= <-]. right. right.
    assert (Hraise : (send_email cfg ev data (appended ev data w)).1 = Raise e1)
      by now rewrite Hse.
    exact (send_email_raise_has_fields cfg ev data _ e1 Hf Hraise).
Qed.

Lemma reachable_session_holds_preview_data_witness :
  reachable sample_cfg after_rejected_preview
  /\ stored_by_preview (session after_rejected_preview).
Proof.
  assert (H : reachable sample_cfg after_rejected_preview)
    by (apply run_reachable, reach_fresh; reflexivity).
  split; [exact H |].
  exact (proj1 (reachable_session_holds_preview_data sample_cfg (sample_env Byte.x7c)
                  GET_index after_rejected_preview (KeyError "name") H)).
Defined.

Lemma timestamp_not_field : "timestamp" ∉ field_names.
Proof.
  unfold field_names. intros H.
  repeat (apply elem_of_cons in H as [H | H]; [discriminate H |]).
  now apply elem_of_nil in H.
Qed.

Lemma confirm_steps_log cfg ev data w :
  fs_fault ev = None -> fits_header data ->
  csv_file (confirm_steps cfg ev data w).2 =
  Some (match csv_file w with
        | None => [Header]
        | Some lines => lines
        end ++ [Row (data ∪ {["timestamp" := FStr (now_iso ev)]})]).
Proof.
  intros Hfs Hfit. pose proof (confirm_steps_effects cfg ev data w) as [H _].
  now rewrite H, (save_to_csv_ok ev data w Hfs Hfit).
Qed.

(** X14. The row written at a confirm fits the header.  In a reachable
    session, a confirm whose append does not raise adds one row whose
    columns are exactly the eight declared field names; the seven fields
    hold what the session held and [timestamp] holds the time of the
    request. *)
Theorem confirm_row_fits_header
    (cfg : config) (ev : env) (form : gmap string str) (w : world) :
  reachable cfg w ->
  validate_csrf (form !! "csrf_token") (session w) = true ->
  form !! "action" <> Some (u "edit") ->
  session w !! "form_data" <> None ->
  fs_fault ev = None ->
  exists row,
    csv_file (submit cfg ev form w).2 =
      Some (match csv_file w with
            | None => [Header]
            | Some lines => lines
            end ++ [Row row])
    /\ dom row = list_to_set fieldnames
    /\ row !! "timestamp" = Some (FStr (now_iso ev))
    /\ forall k, k ∈ field_names -> row !! k = pending w !! k.
Proof.
  intros Hr Hc Ha Hd Hfs.
  pose proof (reachable_stored_by_preview cfg w Hr) as Hst.
  unfold stored_by_preview in Hst. unfold pending.
  destruct (session w !! "form_data") as [[s|data|l]|] eqn:Hdata; try contradiction.
  assert (Hdom : dom data = list_to_set field_names).
  { destruct Hst as (f & [[-> _] | Hv]); [apply dom_raw_echo |].
    rewrite (accepted_normalized_record _ _ Hv). apply dom_normalized_record. }
  assert (Hfit : fits_header data).
  { unfold fits_header. rewrite Hdom. apply field_names_fit. }
  assert (Hts : data !! "timestamp" = None).
  { apply not_elem_of_dom. rewrite Hdom. intros H.
    apply elem_of_list_to_set in H. exact (timestamp_not_field H). }
  assert (Hne : data <> ∅).
  { assert (Hname : "name" ∈ dom data).
    { rewrite Hdom. apply elem_of_list_to_set. apply list_elem_of_here. }
    intros ->. rewrite dom_empty_L in Hname. now apply not_elem_of_empty in Hname. }
  rewrite submit_cases, Hc. cbn [negb].
  rewrite (bool_decide_eq_false_2 _ Ha), Hdata, (bool_decide_eq_false_2 _ Hne).
  exists (data ∪ {["timestamp" := FStr (now_iso ev)]}).
  split; [now apply confirm_steps_log |]. split.
  { rewrite dom_union_L, dom_singleton_L, Hdom. unfold fieldnames, field_names.
    cbn [list_to_set foldr]. set_solver. }
  split.
  { rewrite lookup_union_r by exact Hts. apply lookup_singleton_eq. }
  intros k Hk.
  assert (Hin : k ∈ dom data).
  { rewrite Hdom. now apply elem_of_list_to_set. }
  apply elem_of_dom in Hin as [v Hv].
  rewrite Hv. now apply lookup_union_Some_l.
Qed.

Lemma confirm_row_fits_header_witness :
  reachable sample_cfg after_preview
  /\ validate_csrf (confirm_form second_token !! "csrf_token") (session after_preview) = true
  /\ confirm_form second_token !! "action" <> Some (u "edit")
  /\ session after_preview !! "form_data" <> None
  /\ fs_fault smtp_down_env = None
  /\ exists row,
       csv_file (submit sample_cfg smtp_down_env (confirm_form second_token)
                   after_preview).2
       = Some ([Header] ++ [Row row])
       /\ dom row = list_to_set fieldnames.
Proof.
  assert (H0 : reachable sample_cfg after_preview)
    by (apply run_reachable, reach_fresh; reflexivity).
  assert (H1 : validate_csrf (confirm_form second_token !! "csrf_token")
                 (session after_preview) = true) by by_evaluation.
  assert (H2 : confirm_form second_token !! "action" <> Some (u "edit"))
    by (vm_compute; discriminate).
  assert (H3 : session after_preview !! "form_data" <> None)
    by (vm_compute; discriminate).
  repeat (split; [assumption || reflexivity |]).
  destruct (confirm_row_fits_header sample_cfg smtp_down_env
              (confirm_form second_token) after_preview H0 H1 H2 H3 eq_refl)
    as (row & Hrow & Hdom & _).
  exists row. split; [exact Hrow | exact Hdom].
Defined.

(** X15. A confirm without pending data is a recoverable error: with a valid
    token and an action other than edit, a session that holds no
    [form_data] (or an empty one) gets the session-expired message and a
    redirect; nothing is written or mailed and the token stays as it was. *)
Theorem confirm_without_pending_data
    (cfg : config) (ev : env) (form : gmap string str) (w : world) :
  validate_csrf (form !! "csrf_token") (session w) = true ->
  form !! "action" <> Some (u "edit") ->
  session w !! "form_data" = None \/ session w !! "form_data" = Some (SDict ∅) ->
  submit cfg ev form w =
    (Ok (Redirect "index"), flashed "Session expired. Please re-enter your details." w)
  /\ flashes (session (submit cfg ev form w).2)
     = flashes (session w) ++ ["Session expired. Please re-enter your details."]
  /\ session (submit cfg ev form w).2 !! "csrf_token" = session w !! "csrf_token"
  /\ csv_file (submit cfg ev form w).2 = csv_file w
  /\ outbox (submit cfg ev form w).2 = outbox w.
Proof.
  intros Hc Ha Hd.
  assert (E : submit cfg ev form w =
              (Ok (Redirect "index"),
               flashed "Session expired. Please re-enter your details." w)).
  { rewrite submit_cases, Hc. cbn [negb]. rewrite (bool_decide_eq_false_2 _ Ha).
    destruct Hd as [-> | ->]; [reflexivity |].
    now rewrite bool_decide_eq_true_2. }
  rewrite E. split; [reflexivity |]. simpl. split.
  { unfold flashes at 1. now rewrite lookup_insert_eq. }
  split; [now rewrite lookup_insert_ne by done | now split].
Qed.

Lemma confirm_without_pending_data_witness :
  validate_csrf (confirm_form first_token !! "csrf_token") (session after_index) = true
  /\ confirm_form first_token !! "action" <> Some (u "edit")
  /\ (session after_index !! "form_data" = None
      \/ session after_index !! "form_data" = Some (SDict ∅))
  /\ csv_file (submit sample_cfg (sample_env Byte.x7c) (confirm_form first_token)
                 after_index).2 = csv_file after_index.
Proof.
  assert (H1 : validate_csrf (confirm_form first_token !! "csrf_token")
                 (session after_index) = true) by by_evaluation.
  assert (H2 : confirm_form first_token !! "action" <> Some (u "edit"))
    by (vm_compute; discriminate).
  assert (H3 : session after_index !! "form_data" = None
               \/ session after_index !! "form_data" = Some (SDict ∅))
    by (left; by_evaluation).
  repeat (split; [assumption |]).
  exact (proj1 (proj2 (proj2 (proj2
           (confirm_without_pending_data sample_cfg (sample_env Byte.x7c)
              (confirm_form first_token) after_index H1 H2 H3))))).
Defined.

(** X16. [submit] looks at the action only to recognise edit: two requests
    with the same token whose actions both differ from edit, be it
    "confirm", anything else or no action at all, are handled alike. *)
Theorem any_action_but_edit_confirms
    (cfg : config) (ev : env) (form1 form2 : gmap string str) (w : world) :
  form1 !! "csrf_token" = form2 !! "csrf_token" ->
  form1 !! "action" <> Some (u "edit") ->
  form2 !! "action" <> Some (u "edit") ->
  submit cfg ev form1 w = submit cfg ev form2 w.
Proof.
  intros Ht H1 H2. rewrite !submit_cases, Ht.
  now rewrite (bool_decide_eq_false_2 _ H1), (bool_decide_eq_false_2 _ H2).
Qed.

Lemma any_action_but_edit_confirms_witness :
  confirm_form second_token !! "csrf_token"
    = delete "action" (confirm_form second_token) !! "csrf_token"
  /\ confirm_form second_token !! "action" <> Some (u "edit")
  /\ delete "action" (confirm_form second_token) !! "action" <> Some (u "edit")
  /\ submit sample_cfg (sample_env Byte.x7c) (confirm_form second_token) after_preview
     = submit sample_cfg (sample_env Byte.x7c)
         (delete "action" (confirm_form second_token)) after_preview.
Proof.
  assert (H0 : confirm_form second_token !! "csrf_token"
               = delete "action" (confirm_form second_token) !! "csrf_token")
    by by_evaluation.
  assert (H1 : confirm_form second_token !! "action" <> Some (u "edit"))
    by (vm_compute; discriminate).
  assert (H2 : delete "action" (confirm_form second_token) !! "action"
               <> Some (u "edit")) by (vm_compute; discriminate).
  repeat (split; [assumption |]).
  exact (any_action_but_edit_confirms sample_cfg (sample_env Byte.x7c)
           _ _ after_preview H0 H1 H2).
Defined.




Lemma raw_echo_lookup form k :
  k ∈ field_names -> raw_echo form !! k = Some (of_opt (form !! k)).
Proof.
  unfold field_names, raw_echo. intros Hk.
  repeat (apply elem_of_cons in Hk as [-> | Hk];
          [now rewrite ?lookup_insert_ne, lookup_insert_eq by done |]).
  now apply elem_of_nil in Hk.
Qed.

(** X18. A rejected preview sends the user back with what was typed: with a
    valid token and a form the validator rejects, [preview] redirects, keeps
    the token, writes and mails nothing, adds the reason to the flashed
    messages, and stores the seven fields exactly as posted, not normalized
    ([None] for a field that was not posted); the next [GET /] hands that
    dictionary to the form template. *)
Theorem rejected_preview_echoes_input
    (ev ev' : env) (form : gmap string str) (w : world) (reason : string) :
  validate_csrf (form !! "csrf_token") (session w) = true ->
  validate_payload form = Rejected reason ->
  let w1 := (preview ev form w).2 in
  (preview ev form w).1 = Ok (Redirect "index")
  /\ session w1 !! "csrf_token" = session w !! "csrf_token"
  /\ csv_file w1 = csv_file w /\ outbox w1 = outbox w
  /\ flashes (session w1) = flashes (session w) ++ [reason]
  /\ session w1 !! "form_data" = Some (SDict (raw_echo form))
  /\ render_calls (index ev' w1).2
     = render_calls w ++ [(FORM_TPL (raw_echo form), hex (urandom ev'))]
  /\ forall k, k ∈ field_names -> raw_echo form !! k = Some (of_opt (form !! k)).
Proof.
  intros Hc Hv. cbv zeta. rewrite (preview_rejected ev form w reason Hc Hv).
  cbn [fst snd]. split; [reflexivity |]. split.
  { simpl. now rewrite !lookup_insert_ne by done. }
  do 2 (split; [reflexivity |]). split.
  { unfold flashes. simpl. now rewrite lookup_insert_ne, lookup_insert_eq by done. }
  split; [simpl; apply lookup_insert_eq |].
  split; [| apply raw_echo_lookup].
  rewrite index_eq. cbn [snd]. unfold pending. simpl.
  now rewrite lookup_insert_eq.
Qed.

Lemma rejected_preview_echoes_input_witness :
  validate_csrf (short_name_form !! "csrf_token") (session after_index) = true
  /\ validate_payload short_name_form = Rejected "Please enter a valid full name."
  /\ (preview (sample_env Byte.x5b) short_name_form after_index).1
     = Ok (Redirect "index").
Proof.
  assert (H1 : validate_csrf (short_name_form !! "csrf_token") (session after_index)
               = true) by by_evaluation.
  assert (H2 : validate_payload short_name_form
               = Rejected "Please enter a valid full name.") by by_evaluation.
  repeat (split; [assumption |]).
  exact (proj1 (rejected_preview_echoes_input (sample_env Byte.x5b)
                  (sample_env Byte.x7c) short_name_form after_index _ H1 H2)).
Defined.

(** X19. Preview, then confirm, served without debug.  When a form is
    accepted with a valid token, [preview] stores the record and a new
    token, hands both to the preview template and ends in the exception of
    the template lookup.  When that token comes back with an action other
    than edit and the append does not fail, the confirm adds to the log
    (after the header, if the file is new) one row holding that record with
    the time of the confirm; and when [send_email] returns, the confirm
    leaves no pending data and ends in the exception of the template
    lookup. *)
Theorem preview_then_confirm_persists_record
    (cfg : config) (ev1 ev2 : env) (form form' : gmap string str)
    (data : gmap string field) (w : world) :
  validate_csrf (form !! "csrf_token") (session w) = true ->
  validate_payload form = Accepted data ->
  urandom ev1 <> [] ->
  form' !! "csrf_token" = Some (hex (urandom ev1)) ->
  form' !! "action" <> Some (u "edit") ->
  fs_fault ev2 = None ->
  let w1 := (preview ev1 form w).2 in
  let out := submit cfg ev2 form' w1 in
  (preview ev1 form w).1 = Raise (TemplateNotFound "BASE_HEAD")
  /\ render_calls w1 = render_calls w ++ [(PREVIEW_TPL data, hex (urandom ev1))]
  /\ session w1 !! "form_data" = Some (SDict data)
  /\ csv_file out.2 =
     Some (match csv_file w with
           | None => [Header]
           | Some lines => lines
           end ++ [Row (data ∪ {["timestamp" := FStr (now_iso ev2)]})])
  /\ (forall b, (send_email cfg ev2 data (appended ev2 data w1)).1 = Ok b ->
      out.1 = Raise (TemplateNotFound "BASE_HEAD")
      /\ session out.2 !! "form_data" = None
      /\ render_calls out.2
         = render_calls w ++ [(PREVIEW_TPL data, hex (urandom ev1));
                              (SUCCESS_TPL, hex (urandom ev2))]).
Proof.
  intros Hc Hv Hne Htok Ha Hfs. cbv zeta.
  rewrite (preview_accepted ev1 form w data Hc Hv). cbn [fst snd].
  split; [reflexivity |]. split; [reflexivity |].
  set (w1 := add_render_call _ _ _).
  assert (Hd : session w1 !! "form_data" = Some (SDict data)).
  { subst w1. simpl. now rewrite lookup_insert_ne, lookup_insert_eq by done. }
  split; [exact Hd |].
  assert (Hc1 : validate_csrf (form' !! "csrf_token") (session w1) = true).
  { rewrite Htok. apply validate_csrf_iff. exists (hex (urandom ev1)).
    split; [reflexivity |]. split; [intros H; now apply hex_nil in H |].
    subst w1. simpl. apply lookup_insert_eq. }
  assert (Hf : has_fields data).
  { rewrite (accepted_normalized_record _ _ Hv). apply has_fields_normalized_record. }
  assert (Hfit : fits_header data).
  { unfold fits_header. rewrite (accepted_normalized_record _ _ Hv), dom_normalized_record.
    apply field_names_fit. }
  rewrite (submit_confirm cfg ev2 form' w1 data Hc1 Ha Hd (has_fields_nonempty _ Hf)).
  split; [now rewrite (confirm_steps_log cfg ev2 data w1 Hfs Hfit) |].
  intros b Hb. rewrite confirm_steps_eq, (save_to_csv_ok ev2 data w1 Hfs Hfit).
  pose proof (send_email_frame cfg ev2 data (appended ev2 data w1)) as [Hs _].
  pose proof (send_email_more_frame cfg ev2 data (appended ev2 data w1)) as Hrc.
  destruct (send_email cfg ev2 data (appended ev2 data w1)) as [[b0|e0] w2];
    [| discriminate]. simpl in Hs, Hrc |- *.
  split; [reflexivity |]. split.
  - now rewrite lookup_insert_ne, lookup_delete_eq by done.
  - rewrite Hrc. subst w1. simpl. now rewrite <- app_assoc.
Qed.

Lemma preview_then_confirm_persists_record_witness :
  validate_csrf (good_form !! "csrf_token") (session after_index) = true
  /\ validate_payload good_form = Accepted (normalized_record good_form)
  /\ urandom (sample_env Byte.x5b) <> []
  /\ confirm_form second_token !! "csrf_token" = Some (hex (urandom (sample_env Byte.x5b)))
  /\ confirm_form second_token !! "action" <> Some (u "edit")
  /\ fs_fault smtp_down_env = None
  /\ csv_file (submit sample_cfg smtp_down_env (confirm_form second_token)
                 (preview (sample_env Byte.x5b) good_form after_index).2).2
     = Some ([Header]
             ++ [Row (normalized_record good_form
                      ∪ {["timestamp" := FStr (now_iso smtp_down_env)]})]).
Proof.
  assert (H1 : validate_csrf (good_form !! "csrf_token") (session after_index) = true)
    by by_evaluation.
  assert (H2 : validate_payload good_form = Accepted (normalized_record good_form))
    by by_evaluation.
  assert (H3 : urandom (sample_env Byte.x5b) <> []) by discriminate.
  assert (H4 : confirm_form second_token !! "csrf_token"
               = Some (hex (urandom (sample_env Byte.x5b)))) by by_evaluation.
  assert (H5 : confirm_form second_token !! "action" <> Some (u "edit"))
    by (vm_compute; discriminate).
  repeat (split; [assumption || reflexivity |]).
  exact (proj1 (proj2 (proj2 (proj2 (preview_then_confirm_persists_record sample_cfg
                         (sample_env Byte.x5b) smtp_down_env good_form
                         (confirm_form second_token) _ after_index
                         H1 H2 H3 H4 H5 eq_refl))))).
Defined.

(** One request served under debug: without a stored token it stores none,
    and writes and mails nothing. *)
Lemma serve_debug_step cfg ev req w :
  session w !! "csrf_token" = None ->
  let w1 := (serve true cfg ev req w).2 in
  session w1 !! "csrf_token" = None
  /\ session w1 !! "form_data" = session w !! "form_data"
  /\ csv_file w1 = csv_file w /\ outbox w1 = outbox w.
Proof.
  intros Hnone. cbv zeta.
  assert (Hbad : forall t, validate_csrf t (session w) = false).
  { intros t. destruct (validate_csrf t (session w)) eqn:Hv; [| reflexivity].
    apply validate_csrf_iff in Hv as (t' & _ & _ & Ht). congruence. }
  unfold serve. destruct req as [|form|form]; cbn [handle].
  - rewrite index_eq. cbn [snd]. simpl. auto.
  - rewrite (preview_invalid ev form w (Hbad _)). unfold invalid_session. simpl.
    now rewrite !lookup_insert_ne by done.
  - rewrite (submit_invalid cfg ev form w (Hbad _)). unfold invalid_session. simpl.
    now rewrite !lookup_insert_ne by done.
Qed.

(** X20. As the module starts itself, with [app.run(debug=True)], nothing is
    ever submitted.  Every [GET /] ends in the exception of the template
    lookup and its token is lost with the session of that request; so from a
    session that stores no token, whatever requests follow, the session
    stores no token and no pending data, every [POST] takes the
    invalid-session path, and the log and the mailbox stay as they were. *)
Theorem debug_never_submits
    (cfg : config) (reqs : list (env * request)) (w : world) :
  session w !! "csrf_token" = None ->
  let w' := run_served true cfg reqs w in
  session w' !! "csrf_token" = None
  /\ session w' !! "form_data" = session w !! "form_data"
  /\ csv_file w' = csv_file w /\ outbox w' = outbox w
  /\ forall ev req,
       state_changing req = true ->
       serve true cfg ev req w' = invalid_session w'.
Proof.
  cbv zeta. revert w. induction reqs as [|[ev req] reqs IH]; intros w Hnone.
  - cbn [run_served]. do 4 (split; [auto |]).
    intros ev req Hsc.
    assert (Hbad : validate_csrf (token_of req) (session w) = false).
    { destruct (validate_csrf _ _) eqn:Hv; [| reflexivity].
      apply validate_csrf_iff in Hv as (t' & _ & _ & Ht). congruence. }
    unfold serve. destruct req as [|form|form]; [discriminate | |]; cbn [handle].
    + now rewrite (preview_invalid ev form w Hbad).
    + now rewrite (submit_invalid cfg ev form w Hbad).
  - cbn [run_served].
    destruct (serve_debug_step cfg ev req w Hnone) as (H1 & H2 & H3 & H4).
    destruct (IH _ H1) as (I1 & I2 & I3 & I4 & I5).
    split; [exact I1 |]. split; [congruence |]. split; [congruence |].
    split; [congruence | exact I5].
Qed.

Lemma debug_never_submits_witness :
  session empty_world !! "csrf_token" = None
  /\ csv_file (run_served true sample_cfg
                 [(sample_env Byte.x3a, GET_index);
                  (sample_env Byte.x5b, POST_preview good_form);
                  (sample_env Byte.x7c, POST_submit (confirm_form second_token))]
                 empty_world) = csv_file empty_world.
Proof.
  split; [reflexivity |].
  exact (proj1 (proj2 (proj2 (debug_never_submits sample_cfg
           [(sample_env Byte.x3a, GET_index);
            (sample_env Byte.x5b, POST_preview good_form);
            (sample_env Byte.x7c, POST_submit (confirm_form second_token))]
           empty_world eq_refl)))).
Defined.
